(** * A shallow embedding of [backend/flask_docker/db.py]

    The file models the [Database] class: the connection life cycle
    ([_get_connection], [__del__], [__exit__], [cursor]), the statement
    builders ([insert], [update], [insert_on_dup_update]) and the script
    executor ([execute_many]); of [api.py] it models [get_db].

    Python [str] values are Rocq [string]s; a character is a code point in
    the range U+0000..U+00FF.  Calls into [pymysql], [logging] and [time]
    are recorded as events in a chronological history; whether a driver
    call raises is decided by a driver oracle that sees the history. *)

From Stdlib Require Import String Ascii List Bool Arith ZArith Lia DecimalString.
Import ListNotations.
Open Scope string_scope.

(* ================================================================== *)
(** ** Python string primitives *)
(* ================================================================== *)

Module PyStr.

(** [str.isspace] on one character, for code points below 256: the
    characters TAB..CR, FS..US, SPACE, NEL (0x85) and NBSP (0xA0). *)
Definition is_space (c : ascii) : bool :=
  let n := nat_of_ascii c in
  ((9 <=? n) && (n <=? 13) || (28 <=? n) && (n <=? 32)
   || (n =? 133) || (n =? 160))%nat.

(** Truth value of a string: [bool(s)], false exactly for the empty one. *)
Definition truthy (s : string) : bool :=
  match s with
  | EmptyString => false
  | String _ _ => true
  end.

Fixpoint lstrip (s : string) : string :=
  match s with
  | EmptyString => EmptyString
  | String c s' => if is_space c then lstrip s' else s
  end.

Fixpoint rstrip (s : string) : string :=
  match s with
  | EmptyString => EmptyString
  | String c s' =>
      match rstrip s' with
      | EmptyString => if is_space c then EmptyString else String c EmptyString
      | r => String c r
      end
  end.

(** [s.strip()] *)
Definition strip (s : string) : string := lstrip (rstrip s).

(** [s.startswith(p)] *)
Definition startswith (s p : string) : bool := String.prefix p s.

(** [sub in s] *)
Fixpoint contains (sub s : string) : bool :=
  String.prefix sub s ||
  match s with
  | EmptyString => false
  | String _ s' => contains sub s'
  end.

(** [s.split()]: maximal runs of non-space characters, in order.  [cur] is
    the token being read. *)
Fixpoint split_go (s cur : string) : list string :=
  match s with
  | EmptyString => if truthy cur then [cur] else []
  | String c s' =>
      if is_space c
      then (if truthy cur then cur :: split_go s' "" else split_go s' "")
      else split_go s' (cur ++ String c "")
  end.

Definition split (s : string) : list string := split_go s "".

(** [s.replace(old, new)] for a non-empty [old]: left to right, without
    overlap.  [skip] counts the characters of a match still to be dropped. *)
Fixpoint replace_go (old new : string) (skip : nat) (s : string) : string :=
  match s with
  | EmptyString => EmptyString
  | String c s' =>
      match skip with
      | S k => replace_go old new k s'
      | O =>
          if String.prefix old s
          then new ++ replace_go old new (String.length old - 1) s'
          else String c (replace_go old new 0 s')
      end
  end.

(** With an empty [old], Python puts [new] before every character and at
    the end. *)
Fixpoint intersperse_all (new s : string) : string :=
  match s with
  | EmptyString => new
  | String c s' => new ++ String c (intersperse_all new s')
  end.

Definition replace (s old new : string) : string :=
  if truthy old then replace_go old new 0 s else intersperse_all new s.

(** [sep.join(l)] *)
Fixpoint join (sep : string) (l : list string) : string :=
  match l with
  | [] => ""
  | [x] => x
  | x :: rest => x ++ sep ++ join sep rest
  end.

(** [str(n)] for a non-negative integer. *)
Definition of_nat (n : nat) : string := NilZero.string_of_uint (Nat.to_uint n).

(** Decimal digits of [n], left-padded with zeros to [width] characters
    (the [%02d]-style fields of [strftime]). *)
Fixpoint zeros (k : nat) : string :=
  match k with
  | O => ""
  | S k' => String "0" (zeros k')
  end.

Definition zpad (width n : nat) : string :=
  let d := of_nat n in zeros (width - String.length d) ++ d.

End PyStr.

(* ================================================================== *)
(** ** Values, rows and the driver interface *)
(* ================================================================== *)

(** [datetime.datetime] (naive fields; the builders only format it). *)
Record datetime := mkDatetime {
  year : nat; month : nat; day : nat;
  hour : nat; minute : nat; second : nat; microsecond : nat
}.

(** The scalar values a row or a where clause carries.  [VFloat] holds the
    bit pattern of the double. *)
Inductive value :=
| VNone
| VBool (b : bool)
| VInt (z : Z)
| VFloat (bits : Z)
| VStr (s : string)
| VDatetime (dt : datetime).

(** [isinstance(v, datetime)] *)
Definition is_datetime (v : value) : bool :=
  match v with
  | VDatetime _ => true
  | _ => false
  end.

(** A Python [dict] with string keys, in insertion order. *)
Definition dict := list (string * value).

Inductive exn :=
| RuntimeError (msg : string)
| ValueError (msg : string)
| IndexError (msg : string)
| KeyError (key : string)
| Exception (msg : string)
| DriverError (code : Z).

Inductive result (A : Type) :=
| Ok (a : A)
| Raise (e : exn).
Arguments Ok {A} a.
Arguments Raise {A} e.

(** Calls that leave the process, in the order they are made. *)
Inductive event :=
| EConnect (db : string) (autocommit : bool)   (* pymysql.connect *)
| ELogRetry (retry max_retries : nat)          (* logging.info, line 86 *)
| ESleep (secs : nat)                          (* time.sleep *)
| EPing                                        (* conn.ping(reconnect=True) *)
| ECursor                                      (* conn.cursor() *)
| EExecute (sql : string) (args : option (list value)) (* cursor.execute *)
| ECommit                                      (* conn.commit() *)
| ERollback                                    (* conn.rollback() *)
| ECursorClose                                 (* cursor.close() *)
| EClose                                       (* conn.close() *)
| ELogQuery (sql : string) (args : list value). (* logging.debug, line 138 *)

Definition history := list event.

(** What the code cannot decide itself: whether a call into the driver
    raises, whether the connection reports [open], and what
    [cursor.lastrowid] holds ([None] when it is not an [int]).  Each is a
    function of the calls made so far. *)
Record driver := mkDriver {
  drv_raises : history -> event -> option exn;
  drv_open : history -> bool;
  drv_lastrowid : history -> option Z
}.

(** Computations: a history in, a result and the extended history out. *)
Definition M (A : Type) := history -> result A * history.

Definition ret {A} (a : A) : M A := fun h => (Ok a, h).

Definition raise {A} (e : exn) : M A := fun h => (Raise e, h).

Definition bind {A B} (m : M A) (k : A -> M B) : M B :=
  fun h =>
    match m h with
    | (Ok a, h') => k a h'
    | (Raise e, h') => (Raise e, h')
    end.

Declare Scope py_scope.
Delimit Scope py_scope with py.
Notation "x <- m ;; k" := (bind m (fun x => k))
  (at level 61, m at next level, right associativity) : py_scope.
Notation "m ;; k" := (bind m (fun _ => k))
  (at level 61, right associativity) : py_scope.

(** [try: body  except: handler] with a bare [except]. *)
Definition try_except {A} (body : M A) (handler : M A) : M A :=
  fun h =>
    match body h with
    | (Ok a, h') => (Ok a, h')
    | (Raise _, h') => handler h'
    end.

(** [try: body  finally: fin]: [fin] runs on every exit of [body]; an
    exception of [fin] replaces the outcome of [body]. *)
Definition try_finally {A} (body : M A) (fin : M unit) : M A :=
  fun h =>
    match body h with
    | (r, h') =>
        match fin h' with
        | (Ok _, h'') => (r, h'')
        | (Raise e, h'') => (Raise e, h'')
        end
    end.

(** Lifting a pure step that may raise. *)
Definition lift {A} (r : result A) : M A := fun h => (r, h).

(** The [Database] object: [self.database] and [self.autocommit];
    [self.conn] is the one connection whose calls the history records. *)
Record Database := mkDatabase {
  database : string;
  autocommit : bool
}.

(** [Database.max_retries], the class attribute. *)
Definition max_retries : nat := 1.

(* ================================================================== *)
(** ** The [Database] class *)
(* ================================================================== *)

Open Scope py_scope.

(** [fmt_datetime]: [dt.strftime("%Y-%m-%d %H:%M:%S.%f")] as CPython
    prints it on glibc: the year in plain decimal (four digits from the
    year 1000 on, fewer below), the other fields zero-padded to their
    width. *)
Definition fmt_datetime (dt : datetime) : string :=
  PyStr.of_nat (year dt) ++ "-" ++ PyStr.zpad 2 (month dt) ++ "-"
  ++ PyStr.zpad 2 (day dt) ++ " " ++ PyStr.zpad 2 (hour dt) ++ ":"
  ++ PyStr.zpad 2 (minute dt) ++ ":" ++ PyStr.zpad 2 (second dt) ++ "."
  ++ PyStr.zpad 6 (microsecond dt).

(** [obj.keys()] and [obj[k]]. *)
Definition keys_of (obj : dict) : list string := map fst obj.

Fixpoint getitem (obj : dict) (k : string) : result value :=
  match obj with
  | [] => Raise (KeyError k)
  | (k', v) :: rest => if String.eqb k' k then Ok v else getitem rest k
  end.

(** [[obj[k] for k in keys]] *)
Fixpoint getitems (obj : dict) (keys : list string) : result (list value) :=
  match keys with
  | [] => Ok []
  | k :: rest =>
      match getitem obj k with
      | Raise e => Raise e
      | Ok v =>
          match getitems obj rest with
          | Raise e => Raise e
          | Ok vs => Ok (v :: vs)
          end
      end
  end.

(** [[k for k in obj.keys() if k != "id"]] (lines 179, 214, 235) *)
Definition non_id_keys (obj : dict) : list string :=
  filter (fun k => negb (String.eqb k "id")) (keys_of obj).

(** [args[i] = x] for an index inside the list. *)
Fixpoint list_set {A} (l : list A) (i : nat) (x : A) : list A :=
  match l, i with
  | [], _ => []
  | _ :: t, O => x :: t
  | a :: t, S i' => a :: list_set t i' x
  end.

(** Lines 184-186 of [insert]: the loop over [enumerate(args)] stores the
    formatted string back into [args[i]]. *)
Definition insert_convert_step (args : list value) (i : nat) : list value :=
  match nth_error args i with
  | Some (VDatetime dt) => list_set args i (VStr (fmt_datetime dt))
  | _ => args
  end.

Definition insert_convert (args : list value) : list value :=
  fold_left insert_convert_step (seq 0 (length args)) args.

(** Lines 227-229 of [update] and 242-244 of [insert_on_dup_update]: the
    loop assigns the formatted string to the loop variable [arg].  The
    state is the list [args] and the current binding of [arg]. *)
Definition rebind_step (st : list value * option value) (a : value)
  : list value * option value :=
  match a with
  | VDatetime dt => (fst st, Some (VStr (fmt_datetime dt)))
  | _ => (fst st, Some a)
  end.

Definition rebind_loop (args : list value) : list value * option value :=
  fold_left rebind_step args (args, None).

(** The SQL text and argument list [insert] hands to [cursor.execute]
    (lines 179-186). *)
Definition insert_stmt (table : string) (obj : dict)
  : result (string * list value) :=
  let keys := non_id_keys obj in
  let vals := PyStr.join "," (map (fun _ => "%s") keys) in
  let cols := PyStr.join "," (map (fun key => "`" ++ key ++ "`") keys) in
  let sql := "INSERT INTO " ++ table ++ " (" ++ cols ++ ") VALUES (" ++ vals ++ ")" in
  match getitems obj keys with
  | Raise e => Raise e
  | Ok args => Ok (sql, insert_convert args)
  end.

(** Lines 214-229 of [update]. *)
Definition update_stmt (table : string) (obj : dict)
    (where_ : option (string * value))
    (where_list : option (list (string * value)))
  : result (string * list value) :=
  let keys := non_id_keys obj in
  let updates := PyStr.join "," (map (fun key => "`" ++ key ++ "`=%s") keys) in
  let built :=
    match where_ with
    | Some w =>
        let sql := "UPDATE " ++ table ++ " SET " ++ updates
                   ++ " WHERE `" ++ fst w ++ "`=%s" in
        match getitems obj keys with
        | Raise e => Raise e
        | Ok vs => Ok (sql, (vs ++ [snd w])%list)
        end
    | None =>
        match where_list with
        | Some [] =>
            (* zip of nothing cannot be unpacked into two names *)
            Raise (ValueError "not enough values to unpack (expected 2, got 0)")
        | Some wl =>
            let where_cols := map fst wl in
            let where_args := map snd wl in
            let where_cols :=
              PyStr.join " AND " (map (fun where_col => where_col ++ "=%s") where_cols) in
            let sql := "UPDATE " ++ table ++ " SET " ++ updates
                       ++ " WHERE " ++ where_cols in
            match getitems obj keys with
            | Raise e => Raise e
            | Ok vs => Ok (sql, (vs ++ where_args)%list)
            end
        | None => Raise (ValueError "Need some column/values to index on")
        end
    end in
  match built with
  | Raise e => Raise e
  | Ok (sql, args) => Ok (sql, fst (rebind_loop args))
  end.

(** [update_keys] of [insert_on_dup_update] (line 236). *)
Definition update_keys (obj : dict) : list string :=
  filter (fun k => negb (String.eqb k "created_at")) (non_id_keys obj).

(** The ON DUPLICATE KEY UPDATE list (line 239). *)
Definition dup_updates (obj : dict) : string :=
  PyStr.join ", " (map (fun key => key ++ " = VALUES(" ++ key ++ ")") (update_keys obj)).

(** Lines 235-244 of [insert_on_dup_update]. *)
Definition insert_on_dup_update_stmt (table : string) (obj : dict)
  : result (string * list value) :=
  let keys := non_id_keys obj in
  let cols := PyStr.join ", " (map (fun key => "`" ++ key ++ "`") keys) in
  let vals := PyStr.join ", " (map (fun _ => "%s") keys) in
  let updates := dup_updates obj in
  let sql := "INSERT INTO " ++ table ++ " (" ++ cols ++ ") VALUES (" ++ vals
             ++ ") ON DUPLICATE KEY UPDATE " ++ updates in
  match getitems obj keys with
  | Raise e => Raise e
  | Ok args => Ok (sql, fst (rebind_loop args))
  end.

(** The parser state of [execute_many]: the local variables [DELIMITER],
    [stmt] and [stmts]. *)
Record scan := mkScan {
  DELIMITER : string;
  stmt : string;
  stmts : list string
}.

Definition scan_init : scan := mkScan ";" "" [].

(** One iteration of the loop of lines 304-320. *)
Definition scan_line (st : scan) (line : string) : result scan :=
  if negb (PyStr.truthy (PyStr.strip line)) then Ok st
  else if PyStr.startswith line "--" then Ok st
  else if PyStr.contains "DELIMITER" line then
    match nth_error (PyStr.split line) 1 with
    | Some d => Ok (mkScan d (stmt st) (stmts st))
    | None => Raise (IndexError "list index out of range")
    end
  else if negb (PyStr.contains (DELIMITER st) line) then
    Ok (mkScan (DELIMITER st)
               (stmt st ++ PyStr.replace line (DELIMITER st) ";")
               (stmts st))
  else if PyStr.truthy (stmt st) then
    Ok (mkScan (DELIMITER st) "" (stmts st ++ [PyStr.strip (stmt st ++ line)])%list)
  else
    Ok (mkScan (DELIMITER st) (stmt st) (stmts st ++ [PyStr.strip line])%list).

Fixpoint scan_lines (st : scan) (lines : list string) : result scan :=
  match lines with
  | [] => Ok st
  | line :: rest =>
      match scan_line st line with
      | Raise e => Raise e
      | Ok st' => scan_lines st' rest
      end
  end.

Section Db.

Variable drv : driver.

(** A call into the driver: recorded, then it returns or raises. *)
Definition call (ev : event) : M unit :=
  fun h =>
    match drv_raises drv h ev with
    | None => (Ok tt, h ++ [ev])%list
    | Some e => (Raise e, h ++ [ev])%list
    end.

(** A call that always returns ([logging], [time.sleep]). *)
Definition emit (ev : event) : M unit := fun h => (Ok tt, (h ++ [ev])%list).

(** The loop of [_get_connection] over the remaining values of [retry];
    [max] is the value of [Database.max_retries]. *)
Fixpoint connect_loop (self : Database) (max : nat) (retries : list nat) : M unit :=
  match retries with
  | [] =>
      raise (RuntimeError ("Failed to connect to database after "
                           ++ PyStr.of_nat max ++ " retries"))
  | retry :: rest =>
      try_except
        (call (EConnect (database self) (autocommit self)))
        (emit (ELogRetry retry max) ;;
         (if (retry <? max - 1)%nat then emit (ESleep (2 ^ retry)%nat) else ret tt) ;;
         connect_loop self max rest)
  end.

Definition get_connection_with (max : nat) (self : Database) : M unit :=
  connect_loop self max (seq 0 max).

Definition _get_connection (self : Database) : M unit :=
  get_connection_with max_retries self.

(** [Database(database, autocommit)] *)
Definition __init__ (database : string) (autocommit : bool) : M Database :=
  let self := mkDatabase database autocommit in
  _get_connection self ;; ret self.

(** [__del__] (lines 52-56): [self.conn.open] is read from the driver. *)
Definition __del__ (self : Database) : M unit :=
  fun h =>
    if drv_open drv h
    then (call ECommit ;; call EClose) h
    else (Ok tt, h).

(** [__enter__] and [__exit__]; [exception] is [None] on a clean exit. *)
Definition __enter__ (self : Database) : M Database := ret self.

Definition __exit__ (self : Database) (exception : option exn) : M unit :=
  match exception with
  | Some _ => call ERollback
  | None => call ECommit
  end.

(** [with db: body].  [__exit__] returns [None], so an exception of the
    body is raised again after it. *)
Definition with_database {A} (db : Database) (body : Database -> M A) : M A :=
  self <- __enter__ db ;;
  fun h =>
    match body self h with
    | (Ok a, h') => (__exit__ self None ;; ret a) h'
    | (Raise e, h') => (__exit__ self (Some e) ;; raise e) h'
    end.

(** [with self.cursor() as cursor: body] (lines 108-123). *)
Definition cursor {A} (self : Database) (body : M A) : M A :=
  call EPing ;;
  call ECursor ;;
  try_finally body
    ((if autocommit self then call ECommit else ret tt) ;;
     call ECursorClose).

(** [cursor.lastrowid] *)
Definition lastrowid : M (option Z) := fun h => (Ok (drv_lastrowid drv h), h).

Definition _log_query (sql : string) (args : list value) : M unit :=
  emit (ELogQuery sql args).

Definition insert (self : Database) (table : string) (obj : dict) : M Z :=
  q <- lift (insert_stmt table obj) ;;
  r <- cursor self (call (EExecute (fst q) (Some (snd q))) ;; lastrowid) ;;
  match r with
  | Some n => ret n
  | None => raise (Exception "Database::insert failed")
  end.

Definition update (self : Database) (table : string) (obj : dict)
    (where_ : option (string * value))
    (where_list : option (list (string * value))) : M unit :=
  q <- lift (update_stmt table obj where_ where_list) ;;
  _log_query (fst q) (snd q) ;;
  cursor self (call (EExecute (fst q) (Some (snd q)))).

Definition insert_on_dup_update (self : Database) (table : string) (obj : dict)
  : M Z :=
  q <- lift (insert_on_dup_update_stmt table obj) ;;
  _log_query (fst q) (snd q) ;;
  r <- cursor self (call (EExecute (fst q) (Some (snd q))) ;; lastrowid) ;;
  match r with
  | Some n => ret n
  | None => raise (Exception "Database::insert_on_dup_update failed")
  end.

Definition execute (self : Database) (sql : string) (args : list value) : M unit :=
  _log_query sql args ;;
  cursor self (call (EExecute sql (Some args))).

(** Lines 321-322: [cursor.execute(stmt)] for each statement, no arguments. *)
Fixpoint execute_all (l : list string) : M unit :=
  match l with
  | [] => ret tt
  | s :: rest => call (EExecute s None) ;; execute_all rest
  end.

Definition execute_many (self : Database) (lines : list string) : M unit :=
  cursor self
    (st <- lift (scan_lines scan_init lines) ;;
     execute_all (stmts st) ;;
     call ECommit).

End Db.

(* ================================================================== *)
(** ** Observations on histories, and the drivers used in examples *)
(* ================================================================== *)

(** The SQL texts handed to [cursor.execute], in order. *)
Fixpoint executed (h : history) : list string :=
  match h with
  | [] => []
  | EExecute sql _ :: t => sql :: executed t
  | _ :: t => executed t
  end.

(** The argument tuples handed to [cursor.execute], in order. *)
Fixpoint executed_args (h : history) : list (option (list value)) :=
  match h with
  | [] => []
  | EExecute _ args :: t => args :: executed_args t
  | _ :: t => executed_args t
  end.

Definition is_commit (ev : event) : bool :=
  match ev with ECommit => true | _ => false end.

Definition is_rollback (ev : event) : bool :=
  match ev with ERollback => true | _ => false end.

Definition is_connect (ev : event) : bool :=
  match ev with EConnect _ _ => true | _ => false end.

Definition commits (h : history) : nat := length (filter is_commit h).
Definition rollbacks (h : history) : nat := length (filter is_rollback h).
Definition connects (h : history) : nat := length (filter is_connect h).

(** The arguments of the [time.sleep] calls, in order. *)
Fixpoint sleeps (h : history) : list nat :=
  match h with
  | [] => []
  | ESleep n :: t => n :: sleeps t
  | _ :: t => sleeps t
  end.

(** The calls one failed connection attempt leaves behind, and the calls
    of [max] failed attempts in a row. *)
Definition failed_attempt (self : Database) (max retry : nat) : history :=
  ([EConnect (database self) (autocommit self); ELogRetry retry max]
   ++ (if (retry <? max - 1)%nat then [ESleep (2 ^ retry)%nat] else []))%list.

Definition failed_attempts (self : Database) (max : nat) (retries : list nat)
  : history :=
  flat_map (failed_attempt self max) retries.

(** Whether some character of [s] is not a space. *)
Fixpoint has_nonspace (s : string) : bool :=
  match s with
  | EmptyString => false
  | String c s' => negb (PyStr.is_space c) || has_nonspace s'
  end.

(** The value [insert] binds for a row value: a datetime becomes its
    formatted string, anything else is bound as it is. *)
Definition wire (v : value) : value :=
  match v with
  | VDatetime dt => VStr (fmt_datetime dt)
  | _ => v
  end.

(** The SQL texts of the builders as functions of the column lists they
    are assembled from. *)
Definition insert_sql (table : string) (cols : list string) : string :=
  "INSERT INTO " ++ table ++ " ("
  ++ PyStr.join "," (map (fun key => "`" ++ key ++ "`") cols)
  ++ ") VALUES (" ++ PyStr.join "," (map (fun _ => "%s") cols) ++ ")".

Definition update_set_list (cols : list string) : string :=
  PyStr.join "," (map (fun key => "`" ++ key ++ "`=%s") cols).

Definition update_where_sql (table : string) (cols : list string)
    (where_col : string) : string :=
  "UPDATE " ++ table ++ " SET " ++ update_set_list cols
  ++ " WHERE `" ++ where_col ++ "`=%s".

Definition update_where_list_sql (table : string) (cols where_cols : list string)
  : string :=
  "UPDATE " ++ table ++ " SET " ++ update_set_list cols ++ " WHERE "
  ++ PyStr.join " AND " (map (fun where_col => where_col ++ "=%s") where_cols).

Definition on_duplicate_list (cols : list string) : string :=
  PyStr.join ", " (map (fun key => key ++ " = VALUES(" ++ key ++ ")") cols).

Definition upsert_sql (table : string) (cols dup_cols : list string) : string :=
  "INSERT INTO " ++ table ++ " ("
  ++ PyStr.join ", " (map (fun key => "`" ++ key ++ "`") cols)
  ++ ") VALUES (" ++ PyStr.join ", " (map (fun _ => "%s") cols)
  ++ ") ON DUPLICATE KEY UPDATE " ++ on_duplicate_list dup_cols.

(** A line that [execute_many] appends to the statement buffer under the
    delimiter [d]: not blank, not a comment, no directive, no delimiter. *)
Definition accumulating (d line : string) : bool :=
  PyStr.truthy (PyStr.strip line)
  && negb (PyStr.startswith line "--")
  && negb (PyStr.contains "DELIMITER" line)
  && negb (PyStr.contains d line).

(** A driver on which no call ever raises; [lastrowid] is 7. *)
Definition never_raises : driver :=
  mkDriver (fun _ _ => None) (fun _ => true) (fun _ => Some 7%Z).

(** A driver that refuses every connection attempt. *)
Definition connect_refused : driver :=
  mkDriver (fun _ ev => if is_connect ev then Some (DriverError 2003) else None)
           (fun _ => false) (fun _ => None).

(** A driver whose connection is open and whose [commit] raises. *)
Definition commit_fails : driver :=
  mkDriver (fun _ ev => if is_commit ev then Some (DriverError 2013) else None)
           (fun _ => true) (fun _ => None).

Definition example_db : Database := mkDatabase "app" false.

Definition p7_lines : list string :=
  ["DELIMITER $$"; "SELECT 1$$"; "DELIMITER ;"; "SELECT 2;"].

(* ================================================================== *)
(** ** [api.py], log rendering, further observations *)
(* ================================================================== *)

Section Api.

Variable drv : driver.

(** [get_db] of [api.py] (lines 7-10).  Of the request context [g] only
    the attribute [db] matters: [None] while it is unset.  The result is
    the context after the call and the handle returned. *)
Definition get_db (g : option Database) : M (option Database * Database) :=
  match g with
  | None =>
      db <- __init__ drv "gpt_project" true ;;
      ret (Some db, db)
  | Some db => ret (g, db)
  end.

End Api.

(** Lines 133-137 of [_log_query], after each argument has been turned
    into its string [s] by the f-string: an argument longer than 16000
    characters is cut to its first 16 followed by three dots. *)
Definition log_arg (s : string) : string :=
  if (16000 <? String.length s)%nat
  then String.substring 0 16 s ++ "..."
  else s.

Definition dquote : string := String (ascii_of_nat 34) "".

Definition log_argstr (strs : list string) : string :=
  PyStr.join ", " (map (fun arg => dquote ++ arg ++ dquote) (map log_arg strs)).

(** A driver on which no call raises and [cursor.lastrowid] is [None]. *)
Definition no_rowid : driver :=
  mkDriver (fun _ _ => None) (fun _ => true) (fun _ => None).

(** A driver that rejects the statement [BAD;] and nothing else. *)
Definition rejects_bad : driver :=
  mkDriver (fun _ ev =>
              match ev with
              | EExecute sql _ =>
                  if String.eqb sql "BAD;" then Some (DriverError 1064) else None
              | _ => None
              end)
           (fun _ => true) (fun _ => Some 1%Z).

(** A driver that refuses the first two connection attempts. *)
Definition third_time_lucky : driver :=
  mkDriver (fun h ev =>
              if is_connect ev && (connects h <? 2)%nat
              then Some (DriverError 2003) else None)
           (fun _ => true) (fun _ => None).

(** A handle with autocommit on, as [Database("app")] returns it. *)
Definition autocommit_db : Database := mkDatabase "app" true.

(** A computation that only adds events satisfying [P] to the history. *)
Definition adds_only {A} (P : event -> bool) (m : M A) : Prop :=
  forall h, exists t, snd (m h) = (h ++ t)%list /\ forallb P t = true.

Definition not_rollback (ev : event) : bool := negb (is_rollback ev).
Definition not_commit (ev : event) : bool := negb (is_commit ev).
Definition not_execute (ev : event) : bool :=
  match ev with EExecute _ _ => false | _ => true end.

(** Whether no character of [s] is a space. *)
Fixpoint all_nonspace (s : string) : bool :=
  match s with
  | EmptyString => true
  | String c s' => negb (PyStr.is_space c) && all_nonspace s'
  end.

(** A well-formed delimiter: a non-empty token without whitespace. *)
Definition token (s : string) : bool := PyStr.truthy s && all_nonspace s.

(** The number of occurrences of the character [c] in [s]. *)
Fixpoint count_char (c : ascii) (s : string) : nat :=
  match s with
  | EmptyString => 0
  | String x s' => (if Ascii.eqb x c then 1 else 0) + count_char c s'
  end.

(** The percent signs of a statement: one per [%s] placeholder when no
    identifier contains one. *)
Definition percents (s : string) : nat := count_char "%" s.

(** A statement as [strip] leaves it: not empty, and neither its first nor
    its last character is a space. *)
Definition starts_nonspace (s : string) : bool :=
  match s with
  | EmptyString => true
  | String c _ => negb (PyStr.is_space c)
  end.

Fixpoint ends_nonspace (s : string) : bool :=
  match s with
  | EmptyString => true
  | String c EmptyString => negb (PyStr.is_space c)
  | String _ s' => ends_nonspace s'
  end.

Definition clean_statement (s : string) : bool :=
  PyStr.truthy s && starts_nonspace s && ends_nonspace s.

(** A line [execute_many] skips: blank, or starting with [--]. *)
Definition skipped (line : string) : bool :=
  negb (PyStr.truthy (PyStr.strip line)) || PyStr.startswith line "--".

(** A line that ends a statement under the delimiter [d]: not skipped, no
    directive, and [d] occurs in it. *)
Definition terminating (d line : string) : bool :=
  negb (skipped line)
  && negb (PyStr.contains "DELIMITER" line)
  && PyStr.contains d line.

(* ================================================================== *)
(** ** Facts about the string primitives *)
(* ================================================================== *)

Section StringFacts.

Example strip_select : PyStr.strip "  SELECT 1;  " = "SELECT 1;".
Proof. reflexivity. Qed.

Example split_directive : PyStr.split "DELIMITER   $$ x" = ["DELIMITER"; "$$"; "x"].
Proof. reflexivity. Qed.

Example replace_no_overlap : PyStr.replace "a$$b$$$c" "$$" ";" = "a;b;$c".
Proof. reflexivity. Qed.

Example replace_empty_old : PyStr.replace "abc" "" "-" = "-a-b-c-".
Proof. reflexivity. Qed.

Example join_three : PyStr.join "," ["a"; "b"; "c"] = "a,b,c".
Proof. reflexivity. Qed.

Example zpad_micro : PyStr.zpad 6 1234 = "001234".
Proof. reflexivity. Qed.

Lemma contains_nonempty sub s :
  PyStr.contains sub s = false -> PyStr.truthy sub = true.
Proof.
  destruct sub as [|c sub']; [|reflexivity].
  destruct s; simpl; discriminate.
Qed.

Lemma contains_tail sub c s :
  PyStr.contains sub (String c s) = false ->
  String.prefix sub (String c s) = false /\ PyStr.contains sub s = false.
Proof.
  cbn [PyStr.contains]. intros H. apply orb_false_iff in H. exact H.
Qed.

(** Replacing a substring that does not occur changes nothing. *)
Lemma replace_go_absent old new s :
  PyStr.contains old s = false -> PyStr.replace_go old new 0 s = s.
Proof.
  induction s as [|c s IH]; intros H; [reflexivity|].
  apply contains_tail in H. destruct H as [Hp Hc].
  cbn [PyStr.replace_go]. rewrite Hp. f_equal. exact (IH Hc).
Qed.

Lemma replace_absent s old new :
  PyStr.contains old s = false -> PyStr.replace s old new = s.
Proof.
  intros H. unfold PyStr.replace.
  rewrite (contains_nonempty _ _ H). apply replace_go_absent, H.
Qed.

Lemma truthy_app_r a b : PyStr.truthy b = true -> PyStr.truthy (a ++ b) = true.
Proof.
  destruct a; simpl; auto.
Qed.

Lemma strip_truthy s : PyStr.truthy (PyStr.strip s) = true -> PyStr.truthy s = true.
Proof.
  destruct s; [discriminate|reflexivity].
Qed.

Lemma lstrip_truthy s : PyStr.truthy (PyStr.lstrip s) = has_nonspace s.
Proof.
  induction s as [|c s IH]; [reflexivity|].
  simpl. destruct (PyStr.is_space c); simpl; auto.
Qed.

Lemma rstrip_has_nonspace s : has_nonspace (PyStr.rstrip s) = has_nonspace s.
Proof.
  induction s as [|c s IH]; [reflexivity|].
  simpl. destruct (PyStr.rstrip s) as [|c' r] eqn:E.
  - rewrite <- IH. destruct (PyStr.is_space c) eqn:Ec; simpl; rewrite ?Ec; reflexivity.
  - simpl in *. rewrite IH. reflexivity.
Qed.

Lemma strip_truthy_nonspace s :
  PyStr.truthy (PyStr.strip s) = has_nonspace s.
Proof.
  unfold PyStr.strip. rewrite lstrip_truthy. apply rstrip_has_nonspace.
Qed.

Lemma prefix_nonspace p s :
  String.prefix p s = true -> has_nonspace p = true -> has_nonspace s = true.
Proof.
  revert s. induction p as [|c p IH]; intros s Hp Hn; [discriminate|].
  destruct s as [|c' s]; [discriminate|].
  simpl in Hp. destruct (ascii_dec c c') as [->|]; [|discriminate].
  simpl in *. destruct (PyStr.is_space c'); simpl in *; eauto.
Qed.

Lemma contains_nonspace sub s :
  PyStr.contains sub s = true -> has_nonspace sub = true -> has_nonspace s = true.
Proof.
  induction s as [|c s IH]; intros Hc Hn.
  - destruct sub; [discriminate|]. discriminate.
  - cbn [PyStr.contains] in Hc. apply orb_true_iff in Hc. destruct Hc as [Hp|Hc].
    + exact (prefix_nonspace _ _ Hp Hn).
    + simpl. rewrite (IH Hc Hn). apply orb_true_r.
Qed.

(** A line that mentions DELIMITER is never blank. *)
Lemma directive_not_blank line :
  PyStr.contains "DELIMITER" line = true ->
  PyStr.truthy (PyStr.strip line) = true.
Proof.
  intros H. rewrite strip_truthy_nonspace.
  apply (contains_nonspace _ _ H). reflexivity.
Qed.

End StringFacts.

(* ================================================================== *)
(** ** Facts about the statement builders *)
(* ================================================================== *)

Section BuilderFacts.

Local Open Scope list_scope.

Lemma non_id_keys_In obj k :
  In k (non_id_keys obj) <-> In k (keys_of obj) /\ k <> "id".
Proof.
  unfold non_id_keys. rewrite filter_In, negb_true_iff, String.eqb_neq.
  reflexivity.
Qed.

Lemma non_id_keys_no_id obj : ~ In "id" (non_id_keys obj).
Proof.
  intros H. apply non_id_keys_In in H. destruct H as [_ H]. exact (H eq_refl).
Qed.

Lemma update_keys_In obj k :
  In k (update_keys obj) <->
  In k (keys_of obj) /\ k <> "id" /\ k <> "created_at".
Proof.
  unfold update_keys.
  rewrite filter_In, negb_true_iff, String.eqb_neq, non_id_keys_In.
  tauto.
Qed.

Lemma getitem_In obj k : In k (keys_of obj) -> exists v, getitem obj k = Ok v.
Proof.
  induction obj as [|[k' v'] obj IH]; simpl; [tauto|].
  intros [->|H].
  - rewrite String.eqb_refl. eauto.
  - destruct (String.eqb k' k); eauto.
Qed.

(** The comprehension over keys taken from the row itself never raises
    [KeyError]. *)
Lemma getitems_total obj ks :
  (forall k, In k ks -> In k (keys_of obj)) ->
  exists vs, getitems obj ks = Ok vs
             /\ Forall2 (fun k v => getitem obj k = Ok v) ks vs.
Proof.
  induction ks as [|k ks IH]; intros Hin.
  - exists []. split; [reflexivity|constructor].
  - destruct (getitem_In obj k (Hin k (or_introl eq_refl))) as [v Hv].
    destruct IH as [vs [Hvs HF]].
    { intros k' Hk'. apply Hin. right. exact Hk'. }
    exists (v :: vs). simpl. rewrite Hv, Hvs. split; [reflexivity|].
    constructor; assumption.
Qed.

Lemma row_values obj :
  exists vs, getitems obj (non_id_keys obj) = Ok vs
             /\ Forall2 (fun k v => getitem obj k = Ok v) (non_id_keys obj) vs.
Proof.
  apply getitems_total. intros k Hk. apply non_id_keys_In in Hk. tauto.
Qed.

Lemma rebind_loop_keeps_args_from args st :
  fst (fold_left rebind_step args st) = fst st.
Proof.
  revert st. induction args as [|a args IH]; intros st; [reflexivity|].
  simpl. rewrite IH. destruct a; reflexivity.
Qed.

(** The loop of [update] and [insert_on_dup_update] leaves [args] as it
    found it. *)
Lemma rebind_loop_keeps_args args : fst (rebind_loop args) = args.
Proof.
  unfold rebind_loop. apply rebind_loop_keeps_args_from.
Qed.

Lemma list_set_middle {A} (l1 l2 : list A) a x :
  list_set (l1 ++ a :: l2) (length l1) x = (l1 ++ x :: l2)%list.
Proof.
  induction l1 as [|b l1 IH]; simpl; [reflexivity|]. rewrite IH. reflexivity.
Qed.

Lemma insert_convert_step_middle done a rest :
  insert_convert_step (map wire done ++ a :: rest) (length done)
  = (map wire (done ++ [a]) ++ rest)%list.
Proof.
  unfold insert_convert_step.
  rewrite nth_error_app2; rewrite length_map; [|lia].
  rewrite Nat.sub_diag. simpl.
  rewrite map_app, <- app_assoc. simpl.
  destruct a; try reflexivity.
  rewrite <- (length_map wire done). apply list_set_middle.
Qed.

Lemma insert_convert_from done rest :
  fold_left insert_convert_step (seq (length done) (length rest))
            (map wire done ++ rest)
  = map wire (done ++ rest).
Proof.
  revert done. induction rest as [|a rest IH]; intros done.
  - simpl. rewrite !app_nil_r. reflexivity.
  - simpl. rewrite insert_convert_step_middle.
    replace (S (length done)) with (length (done ++ [a]))
      by (rewrite length_app; simpl; lia).
    rewrite IH, <- app_assoc. reflexivity.
Qed.

(** The loop of [insert] replaces every datetime by its formatted string
    and nothing else. *)
Lemma insert_convert_wire args : insert_convert args = map wire args.
Proof.
  exact (insert_convert_from [] args).
Qed.

Lemma wire_not_datetime v : is_datetime (wire v) = false.
Proof.
  destruct v; reflexivity.
Qed.

End BuilderFacts.

Section BuilderShapes.

Local Open Scope list_scope.

Variables (table : string) (obj : dict) (vs : list value).
Hypothesis Hvs : getitems obj (non_id_keys obj) = Ok vs.

Lemma insert_stmt_shape :
  insert_stmt table obj = Ok (insert_sql table (non_id_keys obj), map wire vs).
Proof.
  unfold insert_stmt. rewrite Hvs, insert_convert_wire. reflexivity.
Qed.

Lemma update_stmt_where_shape w where_list :
  update_stmt table obj (Some w) where_list
  = Ok (update_where_sql table (non_id_keys obj) (fst w), vs ++ [snd w]).
Proof.
  unfold update_stmt. rewrite Hvs, rebind_loop_keeps_args. reflexivity.
Qed.

Lemma update_stmt_where_list_shape c wl :
  update_stmt table obj None (Some (c :: wl))
  = Ok (update_where_list_sql table (non_id_keys obj) (map fst (c :: wl)),
        vs ++ map snd (c :: wl)).
Proof.
  unfold update_stmt. rewrite Hvs, rebind_loop_keeps_args. reflexivity.
Qed.

Lemma insert_on_dup_update_stmt_shape :
  insert_on_dup_update_stmt table obj
  = Ok (upsert_sql table (non_id_keys obj) (update_keys obj), vs).
Proof.
  unfold insert_on_dup_update_stmt. rewrite Hvs, rebind_loop_keeps_args.
  reflexivity.
Qed.

End BuilderShapes.

(* ================================================================== *)
(** ** The statement builders: [id], [created_at], where forms, datetimes *)
(* ================================================================== *)

Section BuilderClaims.

Local Open Scope list_scope.

(** C5.  For every table and row the column list of [insert], [update]
    and [insert_on_dup_update] is the row's keys without ["id"], in the
    row's order; the SQL text is assembled from that list and the bound
    values are the row's values under those keys (plus, for [update], the
    where values).  For [insert("t", {"id": 5, "name": "x"})] the statement
    is [INSERT INTO t (`name`) VALUES (%s)] with ["x"] bound. *)
Theorem builders_exclude_id :
  (forall (table : string) (obj : dict),
     ~ In "id"%string (non_id_keys obj)
     /\ (forall k, In k (non_id_keys obj) <-> In k (keys_of obj) /\ k <> "id"%string)
     /\ exists vs,
          Forall2 (fun k v => getitem obj k = Ok v) (non_id_keys obj) vs
          /\ insert_stmt table obj
             = Ok (insert_sql table (non_id_keys obj), map wire vs)
          /\ (forall w wl,
                update_stmt table obj (Some w) wl
                = Ok (update_where_sql table (non_id_keys obj) (fst w),
                      vs ++ [snd w]))
          /\ (forall c wl,
                update_stmt table obj None (Some (c :: wl))
                = Ok (update_where_list_sql table (non_id_keys obj)
                        (map fst (c :: wl)),
                      vs ++ map snd (c :: wl)))
          /\ insert_on_dup_update_stmt table obj
             = Ok (upsert_sql table (non_id_keys obj) (update_keys obj), vs))
  /\ insert_stmt "t" [("id", VInt 5); ("name", VStr "x")]%string
     = Ok ("INSERT INTO t (`name`) VALUES (%s)"%string, [VStr "x"])
  /\ forall self h,
       insert never_raises self "t" [("id", VInt 5); ("name", VStr "x")]%string h
       = (Ok 7%Z,
          h ++ [EPing; ECursor;
                EExecute "INSERT INTO t (`name`) VALUES (%s)" (Some [VStr "x"])]
            ++ (if autocommit self then [ECommit] else [])
            ++ [ECursorClose]).
Proof.
  split; [|split].
  - intros table obj.
    split; [apply non_id_keys_no_id|].
    split; [apply non_id_keys_In|].
    destruct (row_values obj) as [vs [Hvs HF]].
    exists vs. split; [exact HF|].
    split; [exact (insert_stmt_shape table obj vs Hvs)|].
    split; [intros w wl; exact (update_stmt_where_shape table obj vs Hvs w wl)|].
    split; [intros c wl; exact (update_stmt_where_list_shape table obj vs Hvs c wl)|].
    exact (insert_on_dup_update_stmt_shape table obj vs Hvs).
  - reflexivity.
  - intros [d [|]] h; cbv [insert bind lift cursor try_finally call ret never_raises
                            drv_raises lastrowid drv_lastrowid autocommit];
      simpl; rewrite <- !app_assoc; reflexivity.
Qed.

(** C6.  The ON DUPLICATE KEY UPDATE list of [insert_on_dup_update] is
    built from the row's keys other than ["id"] and ["created_at"], in the
    row's order: every such key is listed and no other. *)
Theorem upsert_preserves_created_at :
  forall (table : string) (obj : dict),
    (exists vs,
       insert_on_dup_update_stmt table obj
       = Ok (upsert_sql table (non_id_keys obj) (update_keys obj), vs))
    /\ update_keys obj
       = filter (fun k => negb (String.eqb k "created_at"))
           (filter (fun k => negb (String.eqb k "id")) (keys_of obj))
    /\ (forall k, In k (update_keys obj) <->
                  In k (keys_of obj) /\ k <> "id"%string /\ k <> "created_at"%string)
    /\ ~ In "created_at"%string (update_keys obj)
    /\ ~ In "id"%string (update_keys obj).
Proof.
  intros table obj.
  split.
  { destruct (row_values obj) as [vs [Hvs _]]. exists vs.
    exact (insert_on_dup_update_stmt_shape table obj vs Hvs). }
  split; [reflexivity|].
  split; [apply update_keys_In|].
  split; intros H; apply update_keys_In in H; destruct H as [_ [H1 H2]];
    [exact (H2 eq_refl)|exact (H1 eq_refl)].
Qed.

(** C7.  [update] called with neither [where] nor [where_list] raises
    [ValueError] and leaves the history as it was: no query is logged, no
    cursor is opened, nothing is executed. *)
Theorem update_requires_where_form :
  forall drv self table obj h,
    update drv self table obj None None h
    = (Raise (ValueError "Need some column/values to index on"), h).
Proof.
  intros drv self table obj h. reflexivity.
Qed.

(** C8.  [update] and [insert_on_dup_update] bind the row's values as they
    are: their conversion loop only rebinds its loop variable, so a
    datetime stays a datetime in the bound arguments; [insert] binds the
    formatted string instead and never a datetime. *)
Theorem update_upsert_bind_datetime_unconverted :
  (forall args, fst (rebind_loop args) = args)
  /\ (forall args, insert_convert args = map wire args)
  /\ (forall (table : string) (obj : dict),
        exists sql_i sql_u vs,
          Forall2 (fun k v => getitem obj k = Ok v) (non_id_keys obj) vs
          /\ insert_stmt table obj = Ok (sql_i, map wire vs)
          /\ insert_on_dup_update_stmt table obj = Ok (sql_u, vs)
          /\ (forall w wl, exists sql,
                update_stmt table obj (Some w) wl = Ok (sql, vs ++ [snd w]))
          /\ (forall c wl, exists sql,
                update_stmt table obj None (Some (c :: wl))
                = Ok (sql, vs ++ map snd (c :: wl)))
          /\ (forall dt, In (VDatetime dt) vs ->
                In (VStr (fmt_datetime dt)) (map wire vs))
          /\ (forall v, In v (map wire vs) -> is_datetime v = false))
  /\ (let dt := mkDatetime 2024 1 2 3 4 5 6 in
      let row := [("name", VStr "x"); ("seen", VDatetime dt)]%string in
      update never_raises example_db "t" row (Some ("id"%string, VInt 5)) None []
      = (Ok tt,
         [ELogQuery "UPDATE t SET `name`=%s,`seen`=%s WHERE `id`=%s"
            [VStr "x"; VDatetime dt; VInt 5];
          EPing; ECursor;
          EExecute "UPDATE t SET `name`=%s,`seen`=%s WHERE `id`=%s"
            (Some [VStr "x"; VDatetime dt; VInt 5]);
          ECursorClose])
      /\ executed_args (snd (insert_on_dup_update never_raises example_db "t" row []))
         = [Some [VStr "x"; VDatetime dt]]
      /\ executed_args (snd (insert never_raises example_db "t" row []))
         = [Some [VStr "x"; VStr "2024-01-02 03:04:05.000006"]]).
Proof.
  split; [exact rebind_loop_keeps_args|].
  split; [exact insert_convert_wire|].
  split; [|repeat split; reflexivity].
  intros table obj.
  destruct (row_values obj) as [vs [Hvs HF]].
  eexists _, _, vs.
  split; [exact HF|].
  split; [exact (insert_stmt_shape table obj vs Hvs)|].
  split; [exact (insert_on_dup_update_stmt_shape table obj vs Hvs)|].
  split; [intros w wl; eexists;
          exact (update_stmt_where_shape table obj vs Hvs w wl)|].
  split; [intros c wl; eexists;
          exact (update_stmt_where_list_shape table obj vs Hvs c wl)|].
  split.
  - intros dt Hin. change (VStr (fmt_datetime dt)) with (wire (VDatetime dt)).
    apply in_map, Hin.
  - intros v Hin. apply in_map_iff in Hin. destruct Hin as [v' [<- _]].
    apply wire_not_datetime.
Qed.

End BuilderClaims.

(* ================================================================== *)
(** ** The connection life cycle *)
(* ================================================================== *)

Section HistoryFacts.

Local Open Scope list_scope.

Lemma sleeps_app a b : sleeps (a ++ b) = sleeps a ++ sleeps b.
Proof.
  induction a as [|ev a IH]; [reflexivity|].
  destruct ev; simpl; rewrite IH; reflexivity.
Qed.

Lemma commits_snoc h ev :
  commits (h ++ [ev]) = commits h + (if is_commit ev then 1 else 0).
Proof.
  unfold commits. rewrite filter_app, length_app. simpl.
  destruct (is_commit ev); reflexivity.
Qed.

Lemma rollbacks_snoc h ev :
  rollbacks (h ++ [ev]) = rollbacks h + (if is_rollback ev then 1 else 0).
Proof.
  unfold rollbacks. rewrite filter_app, length_app. simpl.
  destruct (is_rollback ev); reflexivity.
Qed.

Lemma connects_failed_attempts self max retries :
  connects (failed_attempts self max retries) = length retries.
Proof.
  unfold connects, failed_attempts.
  induction retries as [|k retries IH]; [reflexivity|].
  simpl. f_equal.
  destruct (k <? max - 1)%nat; simpl; exact IH.
Qed.

Lemma sleeps_failed_attempts self max retries :
  (forall k, In k retries -> k < max - 1) ->
  sleeps (failed_attempts self max retries) = map (fun k => 2 ^ k) retries.
Proof.
  unfold failed_attempts.
  induction retries as [|k retries IH]; intros Hlt; [reflexivity|].
  cbn [flat_map]. rewrite sleeps_app, IH by (intros; apply Hlt; right; assumption).
  unfold failed_attempt.
  destruct (Nat.ltb_spec k (max - 1)) as [_|Hge].
  - reflexivity.
  - exfalso. specialize (Hlt k (or_introl eq_refl)). lia.
Qed.

(** [max] failed attempts sleep after every attempt but the last. *)
Lemma sleeps_all_attempts self max :
  sleeps (failed_attempts self max (seq 0 max)) = map (fun k => 2 ^ k) (seq 0 (max - 1)).
Proof.
  destruct max as [|m]; [reflexivity|].
  rewrite seq_S. unfold failed_attempts. rewrite flat_map_app, sleeps_app.
  fold (failed_attempts self (S m) (seq 0 m)).
  rewrite sleeps_failed_attempts.
  - cbn [flat_map plus]. unfold failed_attempt.
    replace (S m - 1) with m by lia.
    rewrite Nat.ltb_irrefl. simpl. rewrite app_nil_r. reflexivity.
  - intros k Hk. apply in_seq in Hk. lia.
Qed.

End HistoryFacts.

Section LifeCycle.

Local Open Scope list_scope.

Variable drv : driver.

(** When every attempt is refused the loop runs through all its retries
    and ends in the [RuntimeError]. *)
Lemma connect_loop_refused self max retries :
  (forall h, drv_raises drv h (EConnect (database self) (autocommit self)) <> None) ->
  forall h,
    connect_loop drv self max retries h
    = (Raise (RuntimeError ("Failed to connect to database after "
                            ++ PyStr.of_nat max ++ " retries")%string),
       h ++ failed_attempts self max retries).
Proof.
  intros Hfail. induction retries as [|k retries IH]; intros h.
  - simpl. unfold raise. rewrite app_nil_r. reflexivity.
  - cbn [connect_loop]. unfold try_except, call.
    destruct (drv_raises drv h (EConnect (database self) (autocommit self))) eqn:E;
      [|exfalso; exact (Hfail h E)].
    unfold bind at 1. unfold emit at 1.
    unfold failed_attempts. cbn [flat_map]. unfold failed_attempt.
    destruct (k <? max - 1)%nat; unfold bind, emit, ret; rewrite IH;
      unfold failed_attempts; simpl; rewrite <- !app_assoc; reflexivity.
Qed.

End LifeCycle.

Section LifeCycleClaims.

Local Open Scope list_scope.

Variable drv : driver.

(** C3.  With a connector that refuses every attempt, [_get_connection]
    run with [max_retries = n] calls [connect] exactly [n] times, sleeps
    [2^k] after failed attempt [k] whenever another attempt follows (so
    [2^0 .. 2^(n-2)], in that order, and nothing after the last attempt),
    and then raises the [RuntimeError] that names [n]; with the class
    attribute as it stands ([max_retries = 1]) construction makes one
    attempt, does not sleep, and raises. *)
Theorem connect_retry_bound :
  forall (self : Database) (n : nat) (h : history),
    (forall h', drv_raises drv h' (EConnect (database self) (autocommit self)) <> None) ->
    (exists t,
       get_connection_with drv n self h
       = (Raise (RuntimeError ("Failed to connect to database after "
                               ++ PyStr.of_nat n ++ " retries")%string),
          h ++ t)
       /\ t = failed_attempts self n (seq 0 n)
       /\ connects t = n
       /\ sleeps t = map (fun k => 2 ^ k) (seq 0 (n - 1)))
    /\ __init__ drv (database self) (autocommit self) h
       = (Raise (RuntimeError "Failed to connect to database after 1 retries"),
          h ++ [EConnect (database self) (autocommit self); ELogRetry 0 1]).
Proof.
  intros self n h Hfail. split.
  - exists (failed_attempts self n (seq 0 n)).
    split; [exact (connect_loop_refused drv self n (seq 0 n) Hfail h)|].
    split; [reflexivity|].
    split; [rewrite connects_failed_attempts; apply length_seq|].
    apply sleeps_all_attempts.
  - unfold __init__, _get_connection, get_connection_with, bind.
    destruct self as [d a]. cbn [database autocommit] in *.
    rewrite (connect_loop_refused drv (mkDatabase d a) max_retries
               (seq 0 max_retries) Hfail h).
    reflexivity.
Qed.

Lemma with_database_unfold (A : Type) self (body : Database -> M A) h :
  with_database drv self body h
  = match body self h with
    | (Ok a, h1) => (__exit__ drv self None ;; ret a) h1
    | (Raise e, h1) => (__exit__ drv self (Some e) ;; raise e) h1
    end.
Proof.
  reflexivity.
Qed.

(** C4.  Leaving [with db:] calls the connection once: after a body that
    returned, [__exit__] issues one [commit] and no [rollback]; after a
    body that raised, it issues one [rollback] and no [commit], and the
    statement as a whole still raises.  This holds for either autocommit
    setting, hence for [autocommit=False]. *)
Theorem exit_commits_or_rolls_back :
  forall (A : Type) (self : Database) (body : Database -> M A) (h : history),
    let out := with_database drv self body h in
    match body self h with
    | (Ok a, h1) =>
        snd out = h1 ++ [ECommit]
        /\ commits (snd out) = commits h1 + 1
        /\ rollbacks (snd out) = rollbacks h1
    | (Raise e, h1) =>
        snd out = h1 ++ [ERollback]
        /\ rollbacks (snd out) = rollbacks h1 + 1
        /\ commits (snd out) = commits h1
        /\ exists e', fst out = Raise e'
    end.
Proof.
  intros A self body h out. subst out.
  rewrite with_database_unfold.
  destruct (body self h) as [[a|e] h1];
    unfold bind, __exit__, call, ret, raise.
  - destruct (drv_raises drv h1 ECommit); cbn [fst snd];
      rewrite commits_snoc, rollbacks_snoc; simpl;
      (split; [reflexivity|split; lia]).
  - destruct (drv_raises drv h1 ERollback); cbn [fst snd];
      rewrite commits_snoc, rollbacks_snoc; simpl;
      (split; [reflexivity|split; [lia|split; [lia|eauto]]]).
Qed.


End LifeCycleClaims.

Section LifeCycleExamples.

Local Open Scope list_scope.

Lemma connect_retry_bound_witness :
  (forall h', drv_raises connect_refused h'
                (EConnect (database example_db) (autocommit example_db)) <> None)
  /\ get_connection_with connect_refused 3 example_db []
     = (Raise (RuntimeError "Failed to connect to database after 3 retries"),
        [EConnect "app" false; ELogRetry 0 3; ESleep 1;
         EConnect "app" false; ELogRetry 1 3; ESleep 2;
         EConnect "app" false; ELogRetry 2 3]).
Proof.
  assert (Hfail : forall h', drv_raises connect_refused h'
                    (EConnect (database example_db) (autocommit example_db)) <> None)
    by (intros h'; simpl; discriminate).
  split; [exact Hfail|].
  destruct (connect_retry_bound connect_refused example_db 3 [] Hfail)
    as [[t [Hrun [Ht _]]] _].
  rewrite Hrun, Ht. reflexivity.
Defined.



End LifeCycleExamples.

(* ================================================================== *)
(** ** The script executor *)
(* ================================================================== *)

Section ScanFacts.

Lemma str_app_assoc (a b c : string) : ((a ++ b) ++ c = a ++ (b ++ c))%string.
Proof.
  induction a as [|x a IH]; simpl; [reflexivity|]. now rewrite IH.
Qed.

Lemma str_app_empty_r (a : string) : (a ++ "")%string = a.
Proof.
  induction a as [|x a IH]; simpl; [reflexivity|]. now rewrite IH.
Qed.

Lemma truthy_app_l a b : PyStr.truthy a = true -> PyStr.truthy (a ++ b) = true.
Proof.
  destruct a; [discriminate|reflexivity].
Qed.

Lemma accumulating_inv d line :
  accumulating d line = true ->
  PyStr.truthy (PyStr.strip line) = true
  /\ PyStr.startswith line "--" = false
  /\ PyStr.contains "DELIMITER" line = false
  /\ PyStr.contains d line = false.
Proof.
  unfold accumulating. rewrite !andb_true_iff, !negb_true_iff. tauto.
Qed.

(** An accumulating line goes to the buffer unchanged. *)
Lemma scan_line_accumulating st line :
  accumulating (DELIMITER st) line = true ->
  scan_line st line = Ok (mkScan (DELIMITER st) (stmt st ++ line) (stmts st)).
Proof.
  intros H. apply accumulating_inv in H. destruct H as [Hb [Hc [Hd Hn]]].
  unfold scan_line. rewrite Hb, Hc, Hd, Hn. simpl.
  rewrite (replace_absent _ _ _ Hn). reflexivity.
Qed.

Lemma scan_lines_accumulating tl :
  forall st,
    Forall (fun line => accumulating (DELIMITER st) line = true) tl ->
    scan_lines st tl
    = Ok (mkScan (DELIMITER st) (stmt st ++ PyStr.join "" tl) (stmts st)).
Proof.
  induction tl as [|line tl IH]; intros st HF.
  - simpl. rewrite str_app_empty_r. destruct st; reflexivity.
  - inversion HF as [|? ? Hline Htl]; subst.
    cbn [scan_lines]. rewrite (scan_line_accumulating _ _ Hline).
    rewrite (IH (mkScan (DELIMITER st) (stmt st ++ line) (stmts st)) Htl).
    cbn [DELIMITER stmt stmts]. rewrite str_app_assoc.
    destruct tl as [|line' tl']; simpl; [rewrite str_app_empty_r|]; reflexivity.
Qed.

Lemma scan_lines_app st a b :
  scan_lines st (a ++ b)
  = match scan_lines st a with
    | Ok st' => scan_lines st' b
    | Raise e => Raise e
    end.
Proof.
  revert st. induction a as [|line a IH]; intros st; [reflexivity|].
  simpl. destruct (scan_line st line); [apply IH|reflexivity].
Qed.

Lemma join_truthy tl :
  tl <> [] ->
  Forall (fun line => PyStr.truthy line = true) tl ->
  PyStr.truthy (PyStr.join "" tl) = true.
Proof.
  intros Hne HF. destruct tl as [|line tl]; [congruence|].
  inversion HF as [|? ? Hline _]; subst.
  destruct tl; simpl; [exact Hline|]. apply truthy_app_l, Hline.
Qed.

End ScanFacts.

Section ScriptRuns.

Local Open Scope list_scope.

Variable drv : driver.

Lemma executed_app a b : executed (a ++ b) = executed a ++ executed b.
Proof.
  induction a as [|ev a IH]; [reflexivity|].
  destruct ev; simpl; rewrite IH; reflexivity.
Qed.

Lemma executed_statements l :
  executed (map (fun s => EExecute s None) l) = l.
Proof.
  induction l as [|s l IH]; simpl; [reflexivity|]. now rewrite IH.
Qed.

(** [execute_many] runs the finalized statements of the scan and nothing
    else; the buffer [stmt] of the final state is not looked at. *)
Lemma execute_many_scanned self lines st :
  scan_lines scan_init lines = Ok st ->
  forall h,
    execute_many drv self lines h
    = cursor drv self (execute_all drv (stmts st) ;; call drv ECommit) h.
Proof.
  intros Hscan h. unfold execute_many. rewrite Hscan. reflexivity.
Qed.

Hypothesis quiet : forall h ev, drv_raises drv h ev = None.

Lemma call_quiet ev h : call drv ev h = (Ok tt, h ++ [ev]).
Proof.
  unfold call. rewrite quiet. reflexivity.
Qed.

Lemma execute_all_quiet l :
  forall h, execute_all drv l h = (Ok tt, h ++ map (fun s => EExecute s None) l).
Proof.
  induction l as [|s l IH]; intros h; simpl.
  - unfold ret. rewrite app_nil_r. reflexivity.
  - unfold bind. rewrite call_quiet, IH, <- app_assoc. reflexivity.
Qed.

Lemma cursor_quiet (A : Type) self (body : M A) h r h' :
  body (h ++ [EPing; ECursor]) = (r, h') ->
  cursor drv self body h
  = (r, h' ++ (if autocommit self then [ECommit] else []) ++ [ECursorClose]).
Proof.
  intros Hbody. unfold cursor, bind. rewrite !call_quiet, <- app_assoc.
  unfold try_finally. simpl. rewrite Hbody.
  destruct (autocommit self); unfold bind, ret; rewrite ?call_quiet;
    rewrite <- ?app_assoc; reflexivity.
Qed.

Lemma execute_many_quiet self lines st h :
  scan_lines scan_init lines = Ok st ->
  execute_many drv self lines h
  = (Ok tt,
     h ++ [EPing; ECursor] ++ map (fun s => EExecute s None) (stmts st)
       ++ [ECommit] ++ (if autocommit self then [ECommit] else [])
       ++ [ECursorClose]).
Proof.
  intros Hscan. rewrite (execute_many_scanned self lines st Hscan).
  rewrite (cursor_quiet unit self _ h (Ok tt)
             ((h ++ [EPing; ECursor])
              ++ map (fun s => EExecute s None) (stmts st) ++ [ECommit])).
  - rewrite <- !app_assoc. reflexivity.
  - unfold bind. rewrite execute_all_quiet, call_quiet, <- !app_assoc.
    reflexivity.
Qed.

End ScriptRuns.

Section ScriptClaims.

Local Open Scope list_scope.

(** C1 (amended).  On the lines of P7 the scan finalizes exactly two
    statements and [execute_many] executes them in that order, each free
    of leading and trailing whitespace.  The terminating [;] is not
    removed from a statement: the second one is executed as [SELECT 2;];
    the first one begins with [SELECT 1].  The buffer is empty at the end
    and the active delimiter is [;] again. *)
Theorem p7_executes_two_statements :
  exists s1 : string,
    scan_lines scan_init p7_lines = Ok (mkScan ";" "" [s1; "SELECT 2;"%string])
    /\ String.prefix "SELECT 1" s1 = true
    /\ PyStr.strip s1 = s1
    /\ PyStr.strip "SELECT 2;" = "SELECT 2;"%string
    /\ (forall drv self h,
          execute_many drv self p7_lines h
          = cursor drv self
              (execute_all drv [s1; "SELECT 2;"%string] ;; call drv ECommit) h)
    /\ (forall self h,
          execute_many never_raises self p7_lines h
          = (Ok tt,
             h ++ [EPing; ECursor;
                   EExecute s1 None; EExecute "SELECT 2;" None; ECommit]
               ++ (if autocommit self then [ECommit] else [])
               ++ [ECursorClose])).
Proof.
  destruct (scan_lines scan_init p7_lines) as [st|e] eqn:Hscan;
    [|discriminate Hscan].
  vm_compute in Hscan. injection Hscan as <-.
  eexists.
  split; [reflexivity|]. split; [reflexivity|]. split; [reflexivity|].
  split; [reflexivity|]. split.
  - intros drv self h. reflexivity.
  - intros self h.
    rewrite (execute_many_quiet never_raises (fun _ _ => eq_refl) self p7_lines
               _ h eq_refl).
    reflexivity.
Qed.

(** C9.  Lines at the end of a script that only accumulate (not blank, no
    comment, no directive, no active delimiter) leave a non-empty buffer
    that [execute_many] drops: the finalized statements are those of the
    script without these lines, the run is the same run, and on a driver
    that never raises it returns normally having executed exactly the
    finalized statements. *)
Theorem unterminated_tail_discarded :
  forall (drv : driver) (self : Database) (ls tl : list string) (st : scan),
    scan_lines scan_init ls = Ok st ->
    tl <> [] ->
    Forall (fun line => accumulating (DELIMITER st) line = true) tl ->
    scan_lines scan_init (ls ++ tl)
    = Ok (mkScan (DELIMITER st) (stmt st ++ PyStr.join "" tl) (stmts st))
    /\ PyStr.truthy (stmt st ++ PyStr.join "" tl) = true
    /\ (forall h,
          execute_many drv self (ls ++ tl) h
          = cursor drv self (execute_all drv (stmts st) ;; call drv ECommit) h)
    /\ (forall h, execute_many drv self (ls ++ tl) h = execute_many drv self ls h)
    /\ ((forall h ev, drv_raises drv h ev = None) ->
        forall h,
          fst (execute_many drv self (ls ++ tl) h) = Ok tt
          /\ executed (snd (execute_many drv self (ls ++ tl) h))
             = executed h ++ stmts st).
Proof.
  intros drv self ls tl st Hls Hne Htl.
  assert (Hscan : scan_lines scan_init (ls ++ tl)
                  = Ok (mkScan (DELIMITER st) (stmt st ++ PyStr.join "" tl) (stmts st))).
  { rewrite scan_lines_app, Hls. apply scan_lines_accumulating, Htl. }
  split; [exact Hscan|]. split.
  { apply truthy_app_r, join_truthy; [exact Hne|].
    eapply Forall_impl; [|exact Htl]. intros line Hl.
    apply accumulating_inv in Hl. apply strip_truthy, Hl. }
  split; [exact (execute_many_scanned drv self _ _ Hscan)|]. split.
  { intros h. rewrite (execute_many_scanned drv self _ _ Hscan h).
    rewrite (execute_many_scanned drv self _ _ Hls h). reflexivity. }
  intros Hq h. rewrite (execute_many_quiet drv Hq self _ _ h Hscan).
  split; [reflexivity|]. cbn [snd stmts].
  rewrite !executed_app, executed_statements.
  destruct (autocommit self); simpl; rewrite app_nil_r; reflexivity.
Qed.

(** C10 (amended).  A line that does not start with [--] and contains
    DELIMITER anywhere is a directive: when it has a second
    whitespace-separated token, that token becomes the active delimiter
    and buffer and statements stay as they were; when it has fewer than two
    tokens the scan raises [IndexError], and [execute_many] on a script
    that begins with such a line leaves the cursor scope with that error
    without having executed anything. *)
Theorem delimiter_directive :
  forall (st : scan) (line : string),
    PyStr.startswith line "--" = false ->
    PyStr.contains "DELIMITER" line = true ->
    (forall d, nth_error (PyStr.split line) 1 = Some d ->
               scan_line st line = Ok (mkScan d (stmt st) (stmts st)))
    /\ (length (PyStr.split line) < 2 ->
        scan_line st line = Raise (IndexError "list index out of range")
        /\ forall self rest h,
             execute_many never_raises self (line :: rest) h
             = (Raise (IndexError "list index out of range"),
                h ++ [EPing; ECursor]
                  ++ (if autocommit self then [ECommit] else [])
                  ++ [ECursorClose])).
Proof.
  intros st line Hc Hd.
  assert (Hline : forall s,
             scan_line s line
             = match nth_error (PyStr.split line) 1 with
               | Some d => Ok (mkScan d (stmt s) (stmts s))
               | None => Raise (IndexError "list index out of range")
               end).
  { intros s. unfold scan_line.
    rewrite (directive_not_blank line Hd), Hc, Hd. reflexivity. }
  split.
  - intros d Hnth. rewrite Hline, Hnth. reflexivity.
  - intros Hlen.
    assert (Hnone : nth_error (PyStr.split line) 1 = None)
      by (apply nth_error_None; lia).
    split; [rewrite Hline, Hnone; reflexivity|].
    intros self rest h. unfold execute_many.
    rewrite (cursor_quiet never_raises (fun _ _ => eq_refl) unit self _ h
               (Raise (IndexError "list index out of range"))
               (h ++ [EPing; ECursor])).
    + rewrite <- !app_assoc. reflexivity.
    + unfold bind, lift. cbn [scan_lines]. rewrite Hline, Hnone. reflexivity.
Qed.

End ScriptClaims.

Section ScriptExamples.

Local Open Scope list_scope.

(** C1, as the specification states it, fails: the statements executed for
    the P7 script still carry their delimiters. *)
Lemma p7_keeps_delimiters :
  executed (snd (execute_many never_raises example_db p7_lines []))
  = ["SELECT 1$$"; "SELECT 2;"]%string
  /\ executed (snd (execute_many never_raises example_db p7_lines []))
     <> ["SELECT 1"; "SELECT 2"]%string.
Proof.
  split; [reflexivity|]. simpl. intros H. discriminate H.
Qed.

Lemma unterminated_tail_discarded_witness :
  scan_lines scan_init ["SELECT 1;"]%string = Ok (mkScan ";" "" ["SELECT 1;"]%string)
  /\ ["SELECT"; " 2"]%string <> []
  /\ Forall (fun line => accumulating ";" line = true) ["SELECT"; " 2"]%string
  /\ execute_many never_raises example_db ["SELECT 1;"; "SELECT"; " 2"]%string []
     = (Ok tt, [EPing; ECursor; EExecute "SELECT 1;" None; ECommit; ECursorClose]).
Proof.
  assert (Hne : ["SELECT"; " 2"]%string <> []) by discriminate.
  assert (HF : Forall (fun line => accumulating ";" line = true)
                 ["SELECT"; " 2"]%string)
    by (repeat constructor).
  split; [reflexivity|]. split; [exact Hne|]. split; [exact HF|].
  destruct (unterminated_tail_discarded never_raises example_db
              ["SELECT 1;"]%string ["SELECT"; " 2"]%string
              (mkScan ";" "" ["SELECT 1;"]%string) eq_refl Hne HF)
    as [_ [_ [_ [Hsame _]]]].
  etransitivity; [exact (Hsame [])|reflexivity].
Defined.

(** C10, as the specification states it, fails on comment lines: a line
    that starts with [--] is skipped before DELIMITER is looked for, so
    the active delimiter stays and the next statement is still executed. *)
Lemma comment_line_is_no_directive :
  PyStr.contains "DELIMITER" "--DELIMITER $$" = true
  /\ nth_error (PyStr.split "--DELIMITER $$") 1 = Some "$$"%string
  /\ scan_line scan_init "--DELIMITER $$" = Ok scan_init
  /\ executed (snd (execute_many never_raises example_db
                      ["--DELIMITER $$"; "SELECT 1;"]%string []))
     = ["SELECT 1;"]%string
  /\ ~ (forall st line d,
          PyStr.contains "DELIMITER" line = true ->
          nth_error (PyStr.split line) 1 = Some d ->
          scan_line st line = Ok (mkScan d (stmt st) (stmts st))).
Proof.
  split; [reflexivity|]. split; [reflexivity|]. split; [reflexivity|].
  split; [reflexivity|].
  intros H.
  specialize (H scan_init "--DELIMITER $$"%string "$$"%string eq_refl eq_refl).
  discriminate H.
Qed.

Lemma delimiter_directive_witness :
  PyStr.startswith "DELIMITER" "--" = false
  /\ PyStr.contains "DELIMITER" "DELIMITER" = true
  /\ length (PyStr.split "DELIMITER") < 2
  /\ scan_line scan_init "DELIMITER $$" = Ok (mkScan "$$" "" [])
  /\ execute_many never_raises example_db ["DELIMITER"]%string []
     = (Raise (IndexError "list index out of range"),
        [EPing; ECursor; ECursorClose]).
Proof.
  assert (Hlen : length (PyStr.split "DELIMITER") < 2) by (simpl; lia).
  split; [reflexivity|]. split; [reflexivity|]. split; [exact Hlen|]. split.
  - exact (proj1 (delimiter_directive scan_init "DELIMITER $$" eq_refl eq_refl)
             "$$"%string eq_refl).
  - destruct (delimiter_directive scan_init "DELIMITER" eq_refl eq_refl)
      as [_ Hbad].
    destruct (Hbad Hlen) as [_ Hrun].
    exact (Hrun example_db [] []).
Defined.

End ScriptExamples.

(* ================================================================== *)
(** ** What the operations add to the history *)
(* ================================================================== *)

Section Frames.

Local Open Scope list_scope.

Variable drv : driver.
Variable P : event -> bool.

Lemma adds_only_ret (A : Type) (a : A) : adds_only P (ret a).
Proof.
  intros h. exists []. rewrite app_nil_r. split; reflexivity.
Qed.

Lemma adds_only_raise (A : Type) e : adds_only P (@raise A e).
Proof.
  intros h. exists []. rewrite app_nil_r. split; reflexivity.
Qed.

Lemma adds_only_lift (A : Type) (r : result A) : adds_only P (lift r).
Proof.
  intros h. exists []. rewrite app_nil_r. split; reflexivity.
Qed.

Lemma adds_only_lastrowid : adds_only P (lastrowid drv).
Proof.
  intros h. exists []. rewrite app_nil_r. split; reflexivity.
Qed.

Lemma adds_only_call ev : P ev = true -> adds_only P (call drv ev).
Proof.
  intros HP h. exists [ev]. unfold call.
  destruct (drv_raises drv h ev); simpl; rewrite HP; split; reflexivity.
Qed.

Lemma adds_only_emit ev : P ev = true -> adds_only P (emit ev).
Proof.
  intros HP h. exists [ev]. simpl. rewrite HP. split; reflexivity.
Qed.

Lemma adds_only_bind (A B : Type) (m : M A) (k : A -> M B) :
  adds_only P m -> (forall a, adds_only P (k a)) -> adds_only P (bind m k).
Proof.
  intros Hm Hk h. unfold bind.
  destruct (Hm h) as [t1 [E1 F1]].
  destruct (m h) as [[a|e] h1]; simpl in E1; subst h1.
  - destruct (Hk a (h ++ t1)) as [t2 [E2 F2]].
    exists (t1 ++ t2). rewrite E2, app_assoc, forallb_app, F1, F2.
    split; reflexivity.
  - exists t1. split; [reflexivity|exact F1].
Qed.

Lemma adds_only_try_finally (A : Type) (body : M A) (fin : M unit) :
  adds_only P body -> adds_only P fin -> adds_only P (try_finally body fin).
Proof.
  intros Hb Hf h. unfold try_finally.
  destruct (Hb h) as [t1 [E1 F1]].
  destruct (body h) as [r h1]; simpl in E1; subst h1.
  destruct (Hf (h ++ t1)) as [t2 [E2 F2]].
  exists (t1 ++ t2). rewrite forallb_app, F1, F2.
  destruct (fin (h ++ t1)) as [[u|e] h2]; simpl in *; subst h2;
    rewrite app_assoc; split; reflexivity.
Qed.

Lemma adds_only_try_except (A : Type) (body handler : M A) :
  adds_only P body -> adds_only P handler -> adds_only P (try_except body handler).
Proof.
  intros Hb Hh h. unfold try_except.
  destruct (Hb h) as [t1 [E1 F1]].
  destruct (body h) as [[a|e] h1]; simpl in E1; subst h1.
  - exists t1. split; [reflexivity|exact F1].
  - destruct (Hh (h ++ t1)) as [t2 [E2 F2]].
    exists (t1 ++ t2). rewrite E2, app_assoc, forallb_app, F1, F2.
    split; reflexivity.
Qed.

(** The cursor scope adds what its body adds, the ping, the cursor, its
    close and, under autocommit, a commit. *)
Lemma adds_only_cursor (A : Type) self (body : M A) :
  P EPing = true -> P ECursor = true -> P ECursorClose = true ->
  (autocommit self = true -> P ECommit = true) ->
  adds_only P body -> adds_only P (cursor drv self body).
Proof.
  intros H1 H2 H3 H4 Hb. unfold cursor.
  apply adds_only_bind; [apply adds_only_call, H1|intros _].
  apply adds_only_bind; [apply adds_only_call, H2|intros _].
  apply adds_only_try_finally; [exact Hb|].
  apply adds_only_bind; [|intros _; apply adds_only_call, H3].
  destruct (autocommit self); [apply adds_only_call, H4; reflexivity|].
  apply adds_only_ret.
Qed.

Lemma adds_only_execute_all l :
  (forall s, P (EExecute s None) = true) -> adds_only P (execute_all drv l).
Proof.
  intros HP. induction l as [|s l IH]; simpl.
  - apply adds_only_ret.
  - apply adds_only_bind; [apply adds_only_call, HP|intros _; exact IH].
Qed.

Lemma adds_only_connect_loop self max retries :
  (forall d a, P (EConnect d a) = true) ->
  (forall r m, P (ELogRetry r m) = true) ->
  (forall n, P (ESleep n) = true) ->
  adds_only P (connect_loop drv self max retries).
Proof.
  intros Hc Hl Hs. induction retries as [|k retries IH]; simpl.
  - apply adds_only_raise.
  - apply adds_only_try_except; [apply adds_only_call, Hc|].
    apply adds_only_bind; [apply adds_only_emit, Hl|intros _].
    apply adds_only_bind; [|intros _; exact IH].
    destruct (k <? max - 1)%nat; [apply adds_only_emit, Hs|apply adds_only_ret].
Qed.

End Frames.

Section FrameCounts.

Local Open Scope list_scope.

Lemma filter_none (P : event -> bool) t :
  forallb P t = true -> filter (fun ev => negb (P ev)) t = [].
Proof.
  induction t as [|ev t IH]; simpl; [reflexivity|].
  intros H. apply andb_true_iff in H. destruct H as [Hev Ht].
  rewrite Hev. simpl. exact (IH Ht).
Qed.

Lemma adds_no_rollback (A : Type) (m : M A) :
  adds_only not_rollback m -> forall h, rollbacks (snd (m h)) = rollbacks h.
Proof.
  intros Hm h. destruct (Hm h) as [t [E F]]. rewrite E.
  unfold rollbacks. rewrite filter_app, length_app.
  replace (filter is_rollback t) with (@nil event); [simpl; lia|].
  symmetry. rewrite <- (filter_none not_rollback t F).
  apply filter_ext. intros ev. unfold not_rollback. now rewrite negb_involutive.
Qed.

Lemma adds_no_commit (A : Type) (m : M A) :
  adds_only not_commit m -> forall h, commits (snd (m h)) = commits h.
Proof.
  intros Hm h. destruct (Hm h) as [t [E F]]. rewrite E.
  unfold commits. rewrite filter_app, length_app.
  replace (filter is_commit t) with (@nil event); [simpl; lia|].
  symmetry. rewrite <- (filter_none not_commit t F).
  apply filter_ext. intros ev. unfold not_commit. now rewrite negb_involutive.
Qed.

Lemma adds_no_execute (A : Type) (m : M A) :
  adds_only not_execute m -> forall h, executed (snd (m h)) = executed h.
Proof.
  intros Hm h. destruct (Hm h) as [t [E F]]. rewrite E.
  clear E. induction h as [|ev h IH]; simpl.
  - induction t as [|ev t IHt]; [reflexivity|].
    simpl in F. apply andb_true_iff in F. destruct F as [Fev Ft].
    destruct ev; try discriminate; simpl; exact (IHt Ft).
  - destruct ev; simpl; rewrite ?IH; reflexivity.
Qed.

End FrameCounts.

Ltac frames :=
  unfold insert, update, insert_on_dup_update, execute, execute_many,
         _log_query, __del__, __exit__, get_connection_with, _get_connection;
  repeat first
    [ apply adds_only_ret
    | apply adds_only_raise
    | apply adds_only_lift
    | apply adds_only_lastrowid
    | apply adds_only_call; reflexivity
    | apply adds_only_emit; reflexivity
    | apply adds_only_execute_all; intros; reflexivity
    | apply adds_only_connect_loop; intros; reflexivity
    | apply adds_only_cursor;
        [reflexivity|reflexivity|reflexivity
        |intros; first [reflexivity|congruence|cbn in *; discriminate]|]
    | apply adds_only_bind; [|intros ?]
    | match goal with
      | |- adds_only _ (match ?x with _ => _ end) => destruct x
      end ].

Section CursorScope.

Local Open Scope list_scope.

Variable drv : driver.

(** The scope, call by call: a failing ping or a failing [conn.cursor()]
    ends it before the body; otherwise the body runs under the
    [finally] block. *)
Lemma cursor_unfold (A : Type) self (body : M A) h :
  cursor drv self body h
  = match drv_raises drv h EPing with
    | Some e => (Raise e, h ++ [EPing])
    | None =>
        match drv_raises drv (h ++ [EPing]) ECursor with
        | Some e => (Raise e, h ++ [EPing; ECursor])
        | None =>
            try_finally body
              ((if autocommit self then call drv ECommit else ret tt) ;;
               call drv ECursorClose)
              (h ++ [EPing; ECursor])
        end
    end.
Proof.
  unfold cursor, bind, call.
  destruct (drv_raises drv h EPing); [reflexivity|].
  destruct (drv_raises drv (h ++ [EPing]) ECursor);
    rewrite <- app_assoc; reflexivity.
Qed.

(** X1.  The cursor scope itself never rolls back, whatever its body
    does and however it ends: the rollbacks in the history are those made
    before the scope and those of the body. *)
Theorem cursor_scope_never_rolls_back :
  forall (A : Type) (self : Database) (body : M A) (h : history),
    rollbacks (snd (cursor drv self body h))
    = match drv_raises drv h EPing, drv_raises drv (h ++ [EPing]) ECursor with
      | None, None => rollbacks (snd (body (h ++ [EPing; ECursor])))
      | _, _ => rollbacks h
      end.
Proof.
  intros A self body h. rewrite cursor_unfold.
  destruct (drv_raises drv h EPing).
  { cbn [snd]. rewrite rollbacks_snoc. simpl. lia. }
  destruct (drv_raises drv (h ++ [EPing]) ECursor).
  { cbn [snd]. change [EPing; ECursor] with ([EPing] ++ [ECursor]).
    rewrite app_assoc, !rollbacks_snoc. simpl. lia. }
  unfold try_finally.
  destruct (body (h ++ [EPing; ECursor])) as [r h1]. cbn [snd].
  assert (Hfin : adds_only not_rollback
                   ((if autocommit self then call drv ECommit else ret tt) ;;
                    call drv ECursorClose)).
  { apply adds_only_bind; [destruct (autocommit self)|intros ?]; frames. }
  pose proof (adds_no_rollback unit _ Hfin h1) as Hr.
  destruct (((if autocommit self then call drv ECommit else ret tt) ;;
             call drv ECursorClose) h1) as [[u|e] h2]; exact Hr.
Qed.

(** X2.  The cursor is released on every exit path of the body: once the
    ping and [conn.cursor()] have succeeded and the commit of the
    [finally] block (made under autocommit only) does not raise, the scope
    ends with [cursor.close()], whether the body returned or raised; if
    the close does not raise either, the outcome of the scope is the
    outcome of the body. *)
Theorem cursor_released_on_every_exit :
  forall (A : Type) (self : Database) (body : M A) (h h1 : history) (r : result A),
    drv_raises drv h EPing = None ->
    drv_raises drv (h ++ [EPing]) ECursor = None ->
    body (h ++ [EPing; ECursor]) = (r, h1) ->
    (autocommit self = true -> drv_raises drv h1 ECommit = None) ->
    snd (cursor drv self body h)
    = h1 ++ (if autocommit self then [ECommit] else []) ++ [ECursorClose]
    /\ (drv_raises drv
          (h1 ++ (if autocommit self then [ECommit] else [])) ECursorClose = None ->
        fst (cursor drv self body h) = r).
Proof.
  intros A self body h h1 r Hping Hcur Hbody Hcommit.
  rewrite cursor_unfold, Hping, Hcur. unfold try_finally. rewrite Hbody.
  unfold bind, call, ret.
  destruct (autocommit self).
  - rewrite (Hcommit eq_refl).
    destruct (drv_raises drv (h1 ++ [ECommit]) ECursorClose);
      cbn [fst snd]; rewrite <- app_assoc; (split; [reflexivity|]);
      intros H; [discriminate H|reflexivity].
  - rewrite app_nil_r.
    destruct (drv_raises drv h1 ECursorClose);
      cbn [fst snd]; (split; [reflexivity|]);
      intros H; [discriminate H|reflexivity].
Qed.

(** X3.  Under autocommit, when the commit of the [finally] block raises,
    [cursor.close()] is never called and the scope ends with that
    exception, whatever the body returned or raised. *)
Theorem cursor_not_closed_when_commit_raises :
  forall (A : Type) (self : Database) (body : M A) (h h1 : history)
         (r : result A) (e : exn),
    drv_raises drv h EPing = None ->
    drv_raises drv (h ++ [EPing]) ECursor = None ->
    body (h ++ [EPing; ECursor]) = (r, h1) ->
    autocommit self = true ->
    drv_raises drv h1 ECommit = Some e ->
    cursor drv self body h = (Raise e, h1 ++ [ECommit]).
Proof.
  intros A self body h h1 r e Hping Hcur Hbody Hauto Hcommit.
  rewrite cursor_unfold, Hping, Hcur. unfold try_finally. rewrite Hbody, Hauto.
  unfold bind, call. rewrite Hcommit. reflexivity.
Qed.

End CursorScope.

Section OperationFrames.

Local Open Scope list_scope.

Variable drv : driver.

(** X4.  Connecting, [insert], [update], [insert_on_dup_update],
    [execute], [execute_many] and [__del__] never roll back: each leaves
    the number of rollbacks in the history unchanged on every driver, also
    when it raises. *)
Theorem operations_never_roll_back :
  forall (self : Database) (table sql : string) (obj : dict)
         (where_ : option (string * value))
         (where_list : option (list (string * value)))
         (args : list value) (lines : list string) (n : nat) (h : history),
    rollbacks (snd (get_connection_with drv n self h)) = rollbacks h
    /\ rollbacks (snd (insert drv self table obj h)) = rollbacks h
    /\ rollbacks (snd (update drv self table obj where_ where_list h)) = rollbacks h
    /\ rollbacks (snd (insert_on_dup_update drv self table obj h)) = rollbacks h
    /\ rollbacks (snd (execute drv self sql args h)) = rollbacks h
    /\ rollbacks (snd (execute_many drv self lines h)) = rollbacks h
    /\ rollbacks (snd (__del__ drv self h)) = rollbacks h.
Proof.
  intros self table sql obj where_ where_list args lines n h.
  repeat split; try (apply adds_no_rollback; frames; fail).
  unfold __del__. destruct (drv_open drv h); [|reflexivity].
  apply (adds_no_rollback unit (call drv ECommit ;; call drv EClose)). frames.
Qed.

(** X5.  On a connection opened with [autocommit=False], [insert],
    [update], [insert_on_dup_update] and [execute] never commit: the number
    of commits in the history is unchanged on every driver, so what they
    wrote stays pending until the caller commits. *)
Theorem writes_stay_pending_without_autocommit :
  forall (self : Database) (table sql : string) (obj : dict)
         (where_ : option (string * value))
         (where_list : option (list (string * value)))
         (args : list value) (h : history),
    autocommit self = false ->
    commits (snd (insert drv self table obj h)) = commits h
    /\ commits (snd (update drv self table obj where_ where_list h)) = commits h
    /\ commits (snd (insert_on_dup_update drv self table obj h)) = commits h
    /\ commits (snd (execute drv self sql args h)) = commits h.
Proof.
  intros self table sql obj where_ where_list args h Hauto.
  repeat split; apply adds_no_commit; frames.
Qed.

End OperationFrames.

Section OperationFrameExamples.

Lemma writes_stay_pending_without_autocommit_witness :
  autocommit example_db = false
  /\ commits (snd (insert never_raises example_db "t"
                     [("name", VStr "x")]%string [ECommit]))
     = 1.
Proof.
  split; [reflexivity|].
  exact (proj1 (writes_stay_pending_without_autocommit never_raises example_db
                  "t" "" [("name", VStr "x")]%string None None [] [ECommit]
                  eq_refl)).
Defined.

End OperationFrameExamples.

(* ================================================================== *)
(** ** More on the statement builders *)
(* ================================================================== *)

Section BuilderRuns.

Local Open Scope list_scope.

Variable drv : driver.
Hypothesis quiet : forall h ev, drv_raises drv h ev = None.

(** X6.  On a driver whose calls do not raise, [insert] and
    [insert_on_dup_update] execute their statement, read
    [cursor.lastrowid] right after it, leave the cursor scope (committing
    under autocommit) and only then decide: an integer is returned,
    anything else raises [Exception] although the statement has already
    run. *)
Theorem insert_returns_lastrowid_after_the_write :
  forall (self : Database) (table : string) (obj : dict) (h : history),
    exists sql args sql' args',
      insert_stmt table obj = Ok (sql, args)
      /\ insert_on_dup_update_stmt table obj = Ok (sql', args')
      /\ (let h1 := h ++ [EPing; ECursor; EExecute sql (Some args)] in
          insert drv self table obj h
          = (match drv_lastrowid drv h1 with
             | Some n => Ok n
             | None => Raise (Exception "Database::insert failed")
             end,
             h1 ++ (if autocommit self then [ECommit] else []) ++ [ECursorClose]))
      /\ (let h1 := h ++ [ELogQuery sql' args'; EPing; ECursor;
                          EExecute sql' (Some args')] in
          insert_on_dup_update drv self table obj h
          = (match drv_lastrowid drv h1 with
             | Some n => Ok n
             | None => Raise (Exception "Database::insert_on_dup_update failed")
             end,
             h1 ++ (if autocommit self then [ECommit] else []) ++ [ECursorClose])).
Proof.
  intros self table obj h.
  destruct (row_values obj) as [vs [Hvs _]].
  pose proof (insert_stmt_shape table obj vs Hvs) as Hi.
  pose proof (insert_on_dup_update_stmt_shape table obj vs Hvs) as Hu.
  eexists _, _, _, _. split; [exact Hi|]. split; [exact Hu|]. split.
  - cbv zeta. unfold insert. rewrite Hi. unfold bind at 1, lift at 1.
    cbn [fst snd]. unfold bind at 1.
    erewrite (cursor_quiet drv quiet).
    2:{ unfold bind, lastrowid. rewrite call_quiet by exact quiet.
        rewrite <- app_assoc. reflexivity. }
    cbn [app]. destruct (drv_lastrowid drv _); reflexivity.
  - cbv zeta. unfold insert_on_dup_update. rewrite Hu.
    unfold bind at 1, lift at 1. cbn [fst snd].
    unfold bind at 1, _log_query, emit. unfold bind at 1.
    erewrite (cursor_quiet drv quiet).
    2:{ unfold bind, lastrowid. rewrite call_quiet by exact quiet.
        rewrite <- !app_assoc. reflexivity. }
    cbn [app]. destruct (drv_lastrowid drv _); reflexivity.
Qed.

End BuilderRuns.

Section BuilderRunExamples.

Lemma insert_returns_lastrowid_after_the_write_witness :
  (forall h ev, drv_raises no_rowid h ev = None)
  /\ insert no_rowid example_db "t" [("name", VStr "x")]%string []
     = (Raise (Exception "Database::insert failed"),
        [EPing; ECursor;
         EExecute "INSERT INTO t (`name`) VALUES (%s)" (Some [VStr "x"]);
         ECursorClose]).
Proof.
  split; [reflexivity|].
  destruct (insert_returns_lastrowid_after_the_write no_rowid
              (fun _ _ => eq_refl) example_db "t"
              [("name", VStr "x")]%string [])
    as [sql [args [sql' [args' [Hi [_ [Hrun _]]]]]]].
  cbv zeta in Hrun. rewrite Hrun.
  injection Hi as <- <-. reflexivity.
Defined.

End BuilderRunExamples.

Section WhereForms.

Local Open Scope list_scope.

Variable drv : driver.

(** X7.  When [update] is given both [where] and [where_list], [where]
    wins and [where_list] is ignored: statement, bound values and the
    whole run are those of the call with [where] alone. *)
Theorem update_where_takes_precedence :
  forall (self : Database) (table : string) (obj : dict)
         (w : string * value) (wl : list (string * value)) (h : history),
    update_stmt table obj (Some w) (Some wl) = update_stmt table obj (Some w) None
    /\ update drv self table obj (Some w) (Some wl) h
       = update drv self table obj (Some w) None h
    /\ exists vs,
         update_stmt table obj (Some w) (Some wl)
         = Ok (update_where_sql table (non_id_keys obj) (fst w), vs ++ [snd w]).
Proof.
  intros self table obj w wl h.
  split; [reflexivity|]. split; [reflexivity|].
  destruct (row_values obj) as [vs [Hvs _]]. exists vs.
  exact (update_stmt_where_shape table obj vs Hvs w (Some wl)).
Qed.

(** X8.  [update] with [where] omitted and an empty [where_list] raises
    [ValueError] from unpacking the empty [zip], before anything is logged
    or sent to the driver. *)
Theorem update_empty_where_list_raises :
  forall (self : Database) (table : string) (obj : dict) (h : history),
    update drv self table obj None (Some []) h
    = (Raise (ValueError "not enough values to unpack (expected 2, got 0)"), h).
Proof.
  intros self table obj h. reflexivity.
Qed.

End WhereForms.

Section Placeholders.

Local Open Scope list_scope.

Lemma percents_app a b : percents (a ++ b) = percents a + percents b.
Proof.
  unfold percents. induction a as [|x a IH]; simpl; [reflexivity|].
  rewrite IH. lia.
Qed.

Lemma percents_join sep l c :
  percents sep = 0 ->
  Forall (fun s => percents s = c) l ->
  percents (PyStr.join sep l) = c * length l.
Proof.
  intros Hsep HF. induction HF as [|s l Hs HF IH];
    [simpl; now rewrite Nat.mul_0_r|].
  destruct l as [|s' l'].
  - change (PyStr.join sep [s]) with s. rewrite Hs. simpl. lia.
  - change (PyStr.join sep (s :: s' :: l'))
      with (s ++ sep ++ PyStr.join sep (s' :: l'))%string.
    rewrite !percents_app, IH, Hs, Hsep. simpl length. lia.
Qed.

Lemma Forall_map_const (A : Type) (f : A -> string) (Q : A -> Prop) c l :
  (forall a, Q a -> percents (f a) = c) ->
  Forall Q l -> Forall (fun s => percents s = c) (map f l).
Proof.
  intros Hf HF. induction HF; simpl; constructor; auto.
Qed.

Lemma non_id_keys_Forall (Q : string -> Prop) obj :
  Forall Q (keys_of obj) -> Forall Q (non_id_keys obj).
Proof.
  intros HF. apply Forall_forall. intros k Hk.
  apply non_id_keys_In in Hk. destruct Hk as [Hk _].
  rewrite Forall_forall in HF. exact (HF k Hk).
Qed.

Lemma update_keys_Forall (Q : string -> Prop) obj :
  Forall Q (keys_of obj) -> Forall Q (update_keys obj).
Proof.
  intros HF. apply Forall_forall. intros k Hk.
  apply update_keys_In in Hk. destruct Hk as [Hk _].
  rewrite Forall_forall in HF. exact (HF k Hk).
Qed.

Lemma percents_join_map (f : string -> string) sep ks c :
  percents sep = 0 ->
  (forall k, percents k = 0 -> percents (f k) = c) ->
  Forall (fun k => percents k = 0) ks ->
  percents (PyStr.join sep (map f ks)) = c * length ks.
Proof.
  intros Hsep Hf HF.
  rewrite (percents_join sep (map f ks) c Hsep), length_map; [reflexivity|].
  exact (Forall_map_const string f _ c ks Hf HF).
Qed.

Ltac percents_of_join :=
  match goal with
  | |- context [percents (PyStr.join ?sep (map ?f ?ks))] =>
      erewrite (percents_join_map f sep ks _ eq_refl);
        [ | intros ? ?; rewrite ?percents_app; cbn;
            repeat match goal with H : percents _ = 0 |- _ => rewrite H end;
            reflexivity
          | assumption ]
  end.

(** X9.  Placeholders and bound values agree in number: when neither the
    table name, nor a column name, nor a where column contains a percent
    sign, the statement built by [insert], [update] (either where form)
    and [insert_on_dup_update] contains exactly as many percent signs, one
    per [%s], as values are bound to it. *)
Theorem placeholders_match_arguments :
  forall (table : string) (obj : dict)
         (w : string * value) (c : string * value) (wl : list (string * value)),
    percents table = 0 ->
    Forall (fun k => percents k = 0) (keys_of obj) ->
    percents (fst w) = 0 ->
    Forall (fun k => percents k = 0) (map fst (c :: wl)) ->
    exists sql1 args1 sql2 args2 sql3 args3 sql4 args4,
      insert_stmt table obj = Ok (sql1, args1)
      /\ percents sql1 = length args1
      /\ update_stmt table obj (Some w) None = Ok (sql2, args2)
      /\ percents sql2 = length args2
      /\ update_stmt table obj None (Some (c :: wl)) = Ok (sql3, args3)
      /\ percents sql3 = length args3
      /\ insert_on_dup_update_stmt table obj = Ok (sql4, args4)
      /\ percents sql4 = length args4.
Proof.
  intros table obj w c wl Ht Hk Hw Hwl.
  destruct (row_values obj) as [vs [Hvs HF]].
  pose proof (Forall2_length HF) as Hlen.
  pose proof (non_id_keys_Forall _ obj Hk) as Hk'.
  pose proof (update_keys_Forall _ obj Hk) as Hk''.
  eexists _, _, _, _, _, _, _, _.
  split; [exact (insert_stmt_shape table obj vs Hvs)|]. split.
  { unfold insert_sql. rewrite !percents_app. repeat percents_of_join.
    rewrite Ht, length_map, <- Hlen. cbn. lia. }
  split; [exact (update_stmt_where_shape table obj vs Hvs w None)|]. split.
  { unfold update_where_sql, update_set_list. rewrite !percents_app.
    repeat percents_of_join.
    rewrite Ht, Hw, length_app, <- Hlen. cbn. lia. }
  split; [exact (update_stmt_where_list_shape table obj vs Hvs c wl)|]. split.
  { unfold update_where_list_sql, update_set_list. rewrite !percents_app.
    repeat percents_of_join.
    rewrite Ht, length_app, !length_map, <- Hlen. cbn. lia. }
  split; [exact (insert_on_dup_update_stmt_shape table obj vs Hvs)|].
  unfold upsert_sql, on_duplicate_list. rewrite !percents_app.
  repeat percents_of_join.
  rewrite Ht, <- Hlen. cbn. lia.
Qed.

End Placeholders.

Section PlaceholderExamples.

Lemma placeholders_match_arguments_witness :
  percents "t" = 0
  /\ Forall (fun k => percents k = 0)
       (keys_of [("id", VInt 5); ("name", VStr "x")]%string)
  /\ percents "id" = 0
  /\ Forall (fun k => percents k = 0) (map fst [("a"%string, VInt 1)])
  /\ exists sql args,
       insert_stmt "t" [("id", VInt 5); ("name", VStr "x")]%string = Ok (sql, args)
       /\ percents sql = length args.
Proof.
  assert (H1 : percents "t" = 0) by reflexivity.
  assert (H2 : Forall (fun k => percents k = 0)
                 (keys_of [("id", VInt 5); ("name", VStr "x")]%string))
    by (repeat constructor).
  assert (H3 : percents (fst ("id"%string, VInt 5)) = 0) by reflexivity.
  assert (H4 : Forall (fun k => percents k = 0)
                 (map fst (("a"%string, VInt 1) :: [])))
    by (repeat constructor).
  split; [exact H1|]. split; [exact H2|]. split; [exact H3|]. split; [exact H4|].
  destruct (placeholders_match_arguments "t"
              [("id", VInt 5); ("name", VStr "x")]%string
              ("id"%string, VInt 5) ("a"%string, VInt 1) [] H1 H2 H3 H4)
    as [sql [args [_ [_ [_ [_ [_ [_ [Hi [Hn _]]]]]]]]]].
  exists sql, args. split; assumption.
Defined.

End PlaceholderExamples.

(* ================================================================== *)
(** ** More on the script executor *)
(* ================================================================== *)

Section StripFacts.

Lemma has_nonspace_app_r a b : has_nonspace b = true -> has_nonspace (a ++ b) = true.
Proof.
  intros H. induction a as [|c a IH]; simpl; [exact H|].
  rewrite IH. apply orb_true_r.
Qed.

Lemma lstrip_starts s : starts_nonspace (PyStr.lstrip s) = true.
Proof.
  induction s as [|c s IH]; [reflexivity|].
  simpl. destruct (PyStr.is_space c) eqn:E; [exact IH|]. simpl. now rewrite E.
Qed.

Lemma rstrip_ends s : ends_nonspace (PyStr.rstrip s) = true.
Proof.
  induction s as [|c s IH]; [reflexivity|].
  simpl. destruct (PyStr.rstrip s) as [|c' r] eqn:E.
  - destruct (PyStr.is_space c) eqn:Ec; simpl; [reflexivity|now rewrite Ec].
  - exact IH.
Qed.

Lemma lstrip_ends s : ends_nonspace s = true -> ends_nonspace (PyStr.lstrip s) = true.
Proof.
  induction s as [|c s IH]; [reflexivity|].
  intros H. simpl. destruct (PyStr.is_space c) eqn:E; [|exact H].
  apply IH. destruct s as [|c' s']; [reflexivity|exact H].
Qed.

(** What [strip] returns is empty or starts and ends with a non-space. *)
Lemma strip_clean s :
  has_nonspace s = true -> clean_statement (PyStr.strip s) = true.
Proof.
  intros H. unfold clean_statement.
  rewrite strip_truthy_nonspace, H. unfold PyStr.strip.
  rewrite lstrip_starts, (lstrip_ends _ (rstrip_ends s)). reflexivity.
Qed.

Lemma token_cons c d : token (String c d) = true ->
  PyStr.is_space c = false /\ (d = EmptyString \/ token d = true).
Proof.
  unfold token. simpl. intros H. apply andb_true_iff in H. destruct H as [Hc Hd].
  apply negb_true_iff in Hc. split; [exact Hc|].
  destruct d; [left; reflexivity|right; exact Hd].
Qed.

Lemma prefix_of_empty d : String.prefix d "" = true -> d = EmptyString.
Proof.
  destruct d; [reflexivity|discriminate].
Qed.

Lemma contains_of_empty d : PyStr.contains d "" = true -> d = EmptyString.
Proof.
  cbn [PyStr.contains]. rewrite orb_false_r. apply prefix_of_empty.
Qed.

Lemma prefix_contains d s : String.prefix d s = true -> PyStr.contains d s = true.
Proof.
  intros H. destruct s; cbn [PyStr.contains]; rewrite H; reflexivity.
Qed.

Lemma prefix_rstrip s :
  forall d, token d = true -> String.prefix d s = true ->
            String.prefix d (PyStr.rstrip s) = true.
Proof.
  induction s as [|b s IH]; intros d Hd Hp.
  - apply prefix_of_empty in Hp. subst d. discriminate Hd.
  - destruct d as [|a d]; [discriminate Hd|].
    simpl in Hp. destruct (ascii_dec a b) as [->|]; [|discriminate Hp].
    apply token_cons in Hd. destruct Hd as [Hb [->|Hd]].
    + simpl. destruct (PyStr.rstrip s); [rewrite Hb|]; simpl;
        destruct (ascii_dec b b); congruence.
    + specialize (IH d Hd Hp). simpl.
      destruct (PyStr.rstrip s) as [|c r].
      * apply prefix_of_empty in IH. subst d. discriminate Hd.
      * simpl. destruct (ascii_dec b b); [exact IH|congruence].
Qed.

Lemma contains_rstrip d s :
  token d = true -> PyStr.contains d s = true ->
  PyStr.contains d (PyStr.rstrip s) = true.
Proof.
  intros Hd. induction s as [|c s IH]; intros Hc.
  - apply contains_of_empty in Hc. subst d. discriminate Hd.
  - cbn [PyStr.contains] in Hc. apply orb_true_iff in Hc. destruct Hc as [Hp|Hc].
    + apply prefix_contains, prefix_rstrip; assumption.
    + specialize (IH Hc). simpl.
      destruct (PyStr.rstrip s) as [|c' r].
      * apply contains_of_empty in IH. subst d. discriminate Hd.
      * cbn [PyStr.contains]. cbn [PyStr.contains] in IH. rewrite IH.
        apply orb_true_r.
Qed.

Lemma contains_lstrip d s :
  token d = true -> PyStr.contains d s = true ->
  PyStr.contains d (PyStr.lstrip s) = true.
Proof.
  intros Hd. induction s as [|c s IH]; intros Hc; [exact Hc|].
  simpl. destruct (PyStr.is_space c) eqn:Ec; [|exact Hc].
  apply IH. cbn [PyStr.contains] in Hc. apply orb_true_iff in Hc.
  destruct Hc as [Hp|Hc]; [|exact Hc].
  destruct d as [|a d]; [discriminate Hd|].
  simpl in Hp. destruct (ascii_dec a c) as [->|]; [|discriminate Hp].
  apply token_cons in Hd. destruct Hd as [Hb _]. congruence.
Qed.

(** Stripping cannot remove an occurrence of a whitespace-free token. *)
Lemma contains_strip d s :
  token d = true -> PyStr.contains d s = true ->
  PyStr.contains d (PyStr.strip s) = true.
Proof.
  intros Hd Hc. apply contains_lstrip, contains_rstrip; assumption.
Qed.

Lemma contains_app_r d a b :
  PyStr.contains d b = true -> PyStr.contains d (a ++ b) = true.
Proof.
  intros H. induction a as [|c a IH]; [exact H|].
  cbn [append PyStr.contains]. rewrite IH. apply orb_true_r.
Qed.

Lemma all_nonspace_snoc s c :
  all_nonspace s = true -> PyStr.is_space c = false ->
  all_nonspace (s ++ String c "") = true.
Proof.
  intros Hs Hc. induction s as [|x s IH]; simpl in *.
  - now rewrite Hc.
  - apply andb_true_iff in Hs. destruct Hs as [Hx Hs]. rewrite Hx, (IH Hs).
    reflexivity.
Qed.

(** Every token [split] returns is non-empty and free of whitespace. *)
Lemma split_go_tokens s :
  forall cur, all_nonspace cur = true ->
              Forall (fun t => token t = true) (PyStr.split_go s cur).
Proof.
  induction s as [|c s IH]; intros cur Hcur; simpl.
  - destruct (PyStr.truthy cur) eqn:E; constructor; [|constructor].
    unfold token. now rewrite E, Hcur.
  - destruct (PyStr.is_space c) eqn:Ec.
    + destruct (PyStr.truthy cur) eqn:E.
      * constructor; [unfold token; now rewrite E, Hcur|]. now apply IH.
      * now apply IH.
    + apply IH, all_nonspace_snoc; assumption.
Qed.

Lemma split_tokens s : Forall (fun t => token t = true) (PyStr.split s).
Proof.
  apply split_go_tokens. reflexivity.
Qed.

End StripFacts.

Section ScanSteps.

Local Open Scope list_scope.

Lemma scan_line_skipped st line : skipped line = true -> scan_line st line = Ok st.
Proof.
  unfold skipped, scan_line. intros H.
  destruct (PyStr.truthy (PyStr.strip line)); simpl in *; [|reflexivity].
  rewrite H. reflexivity.
Qed.

Lemma terminating_inv d line :
  terminating d line = true ->
  PyStr.truthy (PyStr.strip line) = true
  /\ PyStr.startswith line "--" = false
  /\ PyStr.contains "DELIMITER" line = false
  /\ PyStr.contains d line = true.
Proof.
  unfold terminating, skipped.
  rewrite !andb_true_iff, !negb_true_iff, orb_false_iff, negb_false_iff. tauto.
Qed.

(** A terminating line closes the statement made of the buffer and the
    line, and empties the buffer. *)
Lemma scan_line_terminating st line :
  terminating (DELIMITER st) line = true ->
  scan_line st line
  = Ok (mkScan (DELIMITER st) "" (stmts st ++ [PyStr.strip (stmt st ++ line)])).
Proof.
  intros H. apply terminating_inv in H. destruct H as [Hb [Hc [Hd Hn]]].
  unfold scan_line. rewrite Hb, Hc, Hd, Hn. simpl.
  destruct (stmt st) as [|c b] eqn:E; reflexivity.
Qed.

Lemma scan_lines_drop_skipped lines :
  forall st,
    scan_lines st (filter (fun l => negb (skipped l)) lines) = scan_lines st lines.
Proof.
  induction lines as [|line lines IH]; intros st; [reflexivity|].
  simpl. destruct (skipped line) eqn:E; simpl.
  - rewrite (scan_line_skipped st line E). apply IH.
  - destruct (scan_line st line); [apply IH|reflexivity].
Qed.

(** Every line falls into one of four classes. *)
Lemma line_classes d line :
  skipped line = true
  \/ (skipped line = false /\ PyStr.contains "DELIMITER" line = true)
  \/ accumulating d line = true
  \/ terminating d line = true.
Proof.
  unfold accumulating, terminating, skipped.
  destruct (PyStr.truthy (PyStr.strip line)); simpl; [|tauto].
  destruct (PyStr.startswith line "--"); simpl; [tauto|].
  destruct (PyStr.contains "DELIMITER" line); simpl; [tauto|].
  destruct (PyStr.contains d line); simpl; tauto.
Qed.

Lemma scan_line_directive st line :
  skipped line = false -> PyStr.contains "DELIMITER" line = true ->
  scan_line st line
  = match nth_error (PyStr.split line) 1 with
    | Some d => Ok (mkScan d (stmt st) (stmts st))
    | None => Raise (IndexError "list index out of range")
    end.
Proof.
  unfold skipped, scan_line. intros Hs Hd.
  apply orb_false_iff in Hs. destruct Hs as [Hb Hc].
  apply negb_false_iff in Hb. rewrite Hb, Hc, Hd. reflexivity.
Qed.

End ScanSteps.

Section ScriptProperties.

Local Open Scope list_scope.

Variable drv : driver.

(** X10.  Blank lines and lines starting with [--] can be deleted from a
    script without changing anything [execute_many] does: the scan ends in
    the same state and the run is the same, on every driver. *)
Theorem skipped_lines_do_not_matter :
  forall (self : Database) (lines : list string) (h : history),
    scan_lines scan_init (filter (fun l => negb (skipped l)) lines)
    = scan_lines scan_init lines
    /\ execute_many drv self (filter (fun l => negb (skipped l)) lines) h
       = execute_many drv self lines h.
Proof.
  intros self lines h. split; [apply scan_lines_drop_skipped|].
  unfold execute_many. rewrite scan_lines_drop_skipped. reflexivity.
Qed.

(** X11.  A script made only of blank lines and comment lines executes no
    statement, on every driver; it still opens the cursor scope and
    commits, exactly as the empty script does. *)
Theorem only_skipped_lines_execute_nothing :
  forall (self : Database) (lines : list string) (h : history),
    Forall (fun l => skipped l = true) lines ->
    scan_lines scan_init lines = Ok scan_init
    /\ executed (snd (execute_many drv self lines h)) = executed h
    /\ execute_many drv self lines h = execute_many drv self [] h
    /\ execute_many drv self lines h
       = cursor drv self (ret tt ;; call drv ECommit) h.
Proof.
  intros self lines h HF.
  assert (Hscan : scan_lines scan_init lines = Ok scan_init).
  { generalize scan_init. induction HF as [|l lines Hl HF IH]; intros st;
      [reflexivity|].
    simpl. rewrite (scan_line_skipped st l Hl). apply IH. }
  assert (Hrun : execute_many drv self lines h
                 = cursor drv self (ret tt ;; call drv ECommit) h).
  { unfold execute_many. rewrite Hscan. reflexivity. }
  split; [exact Hscan|]. split; [|split; [rewrite Hrun; reflexivity|exact Hrun]].
  rewrite Hrun. apply adds_no_execute. frames.
Qed.

(** X12.  A statement spread over several lines is the lines glued
    together without any separator and then stripped: after lines that
    only accumulate, a line containing the active delimiter finalizes
    [strip(buffer + lines + line)] and leaves the buffer empty. *)
Theorem statement_is_glued_lines :
  forall (st : scan) (tl : list string) (line : string),
    Forall (fun l => accumulating (DELIMITER st) l = true) tl ->
    terminating (DELIMITER st) line = true ->
    scan_lines st (tl ++ [line])
    = Ok (mkScan (DELIMITER st) ""
            (stmts st ++ [PyStr.strip (stmt st ++ PyStr.join "" tl ++ line)])).
Proof.
  intros st tl line Htl Hline.
  rewrite scan_lines_app, (scan_lines_accumulating tl st Htl).
  cbn [scan_lines]. rewrite scan_line_terminating by exact Hline.
  cbn [DELIMITER stmt stmts]. rewrite str_app_assoc. reflexivity.
Qed.

End ScriptProperties.

Section ScriptPropertyExamples.

Local Open Scope list_scope.

Lemma only_skipped_lines_execute_nothing_witness :
  Forall (fun l => skipped l = true) ["-- schema"; "   "; ""]%string
  /\ execute_many never_raises example_db ["-- schema"; "   "; ""]%string []
     = (Ok tt, [EPing; ECursor; ECommit; ECursorClose]).
Proof.
  assert (HF : Forall (fun l => skipped l = true) ["-- schema"; "   "; ""]%string)
    by (repeat constructor).
  split; [exact HF|].
  destruct (only_skipped_lines_execute_nothing never_raises example_db
              ["-- schema"; "   "; ""]%string [] HF) as [_ [_ [_ Hrun]]].
  rewrite Hrun. reflexivity.
Defined.

Lemma statement_is_glued_lines_witness :
  Forall (fun l => accumulating ";" l = true) ["SELECT"; "1"]%string
  /\ terminating ";" "FROM t;" = true
  /\ scan_lines scan_init ["SELECT"; "1"; "FROM t;"]%string
     = Ok (mkScan ";" "" ["SELECT1FROM t;"]%string).
Proof.
  assert (HF : Forall (fun l => accumulating (DELIMITER scan_init) l = true)
                 ["SELECT"; "1"]%string)
    by (repeat constructor).
  split; [exact HF|]. split; [reflexivity|].
  exact (statement_is_glued_lines scan_init ["SELECT"; "1"]%string "FROM t;"
           HF eq_refl).
Defined.

End ScriptPropertyExamples.

Section ScanInvariants.

Local Open Scope list_scope.

Lemma scan_line_keeps_clean st st' line :
  scan_line st line = Ok st' ->
  Forall (fun s => clean_statement s = true) (stmts st) ->
  Forall (fun s => clean_statement s = true) (stmts st').
Proof.
  intros Hstep Hinv.
  destruct (line_classes (DELIMITER st) line) as [H|[[H1 H2]|[H|H]]].
  - rewrite (scan_line_skipped st line H) in Hstep. injection Hstep as <-. exact Hinv.
  - rewrite (scan_line_directive st line H1 H2) in Hstep.
    destruct (nth_error (PyStr.split line) 1); [|discriminate Hstep].
    injection Hstep as <-. exact Hinv.
  - rewrite (scan_line_accumulating st line H) in Hstep. injection Hstep as <-.
    exact Hinv.
  - rewrite (scan_line_terminating st line H) in Hstep. injection Hstep as <-.
    cbn [stmts]. apply Forall_app. split; [exact Hinv|].
    constructor; [|constructor].
    apply strip_clean, has_nonspace_app_r.
    apply terminating_inv in H. destruct H as [Hb _].
    rewrite <- strip_truthy_nonspace. exact Hb.
Qed.

Lemma scan_line_keeps_token st st' line :
  scan_line st line = Ok st' ->
  token (DELIMITER st) = true -> token (DELIMITER st') = true.
Proof.
  intros Hstep Hinv.
  destruct (line_classes (DELIMITER st) line) as [H|[[H1 H2]|[H|H]]].
  - rewrite (scan_line_skipped st line H) in Hstep. injection Hstep as <-. exact Hinv.
  - rewrite (scan_line_directive st line H1 H2) in Hstep.
    destruct (nth_error (PyStr.split line) 1) as [d|] eqn:E; [|discriminate Hstep].
    injection Hstep as <-. cbn [DELIMITER]. apply nth_error_In in E.
    pose proof (split_tokens line) as HF. rewrite Forall_forall in HF.
    exact (HF d E).
  - rewrite (scan_line_accumulating st line H) in Hstep. injection Hstep as <-.
    exact Hinv.
  - rewrite (scan_line_terminating st line H) in Hstep. injection Hstep as <-.
    exact Hinv.
Qed.

Lemma scan_lines_invariant (I : scan -> Prop) :
  (forall st st' line, scan_line st line = Ok st' -> I st -> I st') ->
  forall lines st st', scan_lines st lines = Ok st' -> I st -> I st'.
Proof.
  intros Hstep. induction lines as [|line lines IH]; intros st st' Hrun Hst.
  - injection Hrun as <-. exact Hst.
  - simpl in Hrun. destruct (scan_line st line) as [st1|e] eqn:E; [|discriminate].
    exact (IH st1 st' Hrun (Hstep st st1 line E Hst)).
Qed.

(** X13.  Every statement [execute_many] finalizes is non-empty and has
    neither leading nor trailing whitespace. *)
Theorem statements_are_stripped :
  forall (lines : list string) (st : scan),
    scan_lines scan_init lines = Ok st ->
    Forall (fun s => clean_statement s = true) (stmts st).
Proof.
  intros lines st Hrun.
  apply (scan_lines_invariant
           (fun st => Forall (fun s => clean_statement s = true) (stmts st))
           scan_line_keeps_clean lines scan_init st Hrun).
  constructor.
Qed.

(** X14.  The active delimiter is at every point of the scan a non-empty
    token without whitespace: it starts as [;] and a directive can only
    replace it by a token that [split] returned. *)
Theorem delimiter_is_always_a_token :
  forall (lines : list string) (st : scan),
    scan_lines scan_init lines = Ok st ->
    token (DELIMITER st) = true.
Proof.
  intros lines st Hrun.
  exact (scan_lines_invariant (fun st => token (DELIMITER st) = true)
           scan_line_keeps_token lines scan_init st Hrun eq_refl).
Qed.

Lemma scan_directive_free lines :
  Forall (fun l => PyStr.contains "DELIMITER" l = false) lines ->
  forall st,
    DELIMITER st = ";"%string ->
    Forall (fun s => PyStr.contains ";" s = true) (stmts st) ->
    exists st',
      scan_lines st lines = Ok st'
      /\ DELIMITER st' = ";"%string
      /\ Forall (fun s => PyStr.contains ";" s = true) (stmts st').
Proof.
  induction 1 as [|line lines Hline HF IH]; intros st Hd Hinv.
  - exists st. repeat split; assumption.
  - cbn [scan_lines].
    destruct (line_classes (DELIMITER st) line) as [H|[[H1 H2]|[H|H]]].
    + rewrite (scan_line_skipped st line H). exact (IH st Hd Hinv).
    + congruence.
    + rewrite (scan_line_accumulating st line H). apply IH; assumption.
    + rewrite (scan_line_terminating st line H). apply IH; [assumption|].
      cbn [stmts]. apply Forall_app. split; [exact Hinv|].
      constructor; [|constructor].
      apply terminating_inv in H. destruct H as [_ [_ [_ Hc]]]. rewrite Hd in Hc.
      apply contains_strip; [reflexivity|]. apply contains_app_r, Hc.
Qed.

(** X15.  A script without any DELIMITER line always scans without error,
    and every statement it yields still contains a semicolon: the
    terminating delimiter is never removed before execution. *)
Theorem semicolon_is_never_stripped :
  forall (lines : list string),
    Forall (fun l => PyStr.contains "DELIMITER" l = false) lines ->
    exists st,
      scan_lines scan_init lines = Ok st
      /\ DELIMITER st = ";"%string
      /\ Forall (fun s => PyStr.contains ";" s = true) (stmts st).
Proof.
  intros lines HF.
  apply (scan_directive_free lines HF scan_init eq_refl). constructor.
Qed.

End ScanInvariants.

Section ScanInvariantExamples.

Local Open Scope list_scope.

Lemma statements_are_stripped_witness :
  scan_lines scan_init ["  SELECT 1 ;  "; "x"; " y; "]%string
  = Ok (mkScan ";" "" ["SELECT 1 ;"; "x y;"]%string)
  /\ Forall (fun s => clean_statement s = true) ["SELECT 1 ;"; "x y;"]%string.
Proof.
  split; [reflexivity|].
  exact (statements_are_stripped ["  SELECT 1 ;  "; "x"; " y; "]%string
           (mkScan ";" "" ["SELECT 1 ;"; "x y;"]%string) eq_refl).
Defined.

Lemma delimiter_is_always_a_token_witness :
  scan_lines scan_init ["DELIMITER   //  trailing"; "SELECT 1//"]%string
  = Ok (mkScan "//" "" ["SELECT 1//"]%string)
  /\ token "//" = true.
Proof.
  split; [reflexivity|].
  exact (delimiter_is_always_a_token
           ["DELIMITER   //  trailing"; "SELECT 1//"]%string
           (mkScan "//" "" ["SELECT 1//"]%string) eq_refl).
Defined.

Lemma semicolon_is_never_stripped_witness :
  Forall (fun l => PyStr.contains "DELIMITER" l = false)
    ["SELECT 1;"; "-- note"; "SELECT 2 ; "]%string
  /\ exists st,
       scan_lines scan_init ["SELECT 1;"; "-- note"; "SELECT 2 ; "]%string = Ok st
       /\ DELIMITER st = ";"%string
       /\ Forall (fun s => PyStr.contains ";" s = true) (stmts st).
Proof.
  assert (HF : Forall (fun l => PyStr.contains "DELIMITER" l = false)
                 ["SELECT 1;"; "-- note"; "SELECT 2 ; "]%string)
    by (repeat constructor).
  split; [exact HF|].
  exact (semicolon_is_never_stripped _ HF).
Defined.

End ScanInvariantExamples.

Section ScriptFailures.

Local Open Scope list_scope.

Variable drv : driver.

Lemma commits_app a b : commits (a ++ b) = commits a + commits b.
Proof.
  unfold commits. now rewrite filter_app, length_app.
Qed.

Lemma commits_statements l : commits (map (fun s => EExecute s None) l) = 0.
Proof.
  unfold commits. induction l; simpl; auto.
Qed.

Lemma commits_tail h t : forallb not_commit t = true -> commits (h ++ t) = commits h.
Proof.
  intros H. rewrite commits_app. unfold commits at 2.
  replace (filter is_commit t) with (@nil event); [simpl; lia|].
  symmetry. rewrite <- (filter_none not_commit t H).
  apply filter_ext. intros ev. unfold not_commit. now rewrite negb_involutive.
Qed.

Lemma executed_tail h t :
  forallb not_execute t = true -> executed (h ++ t) = executed h.
Proof.
  intros H. rewrite executed_app.
  replace (executed t) with (@nil string); [apply app_nil_r|].
  induction t as [|ev t IH]; [reflexivity|].
  simpl in H. apply andb_true_iff in H. destruct H as [Hev Ht].
  destruct ev; try discriminate; simpl; exact (IH Ht).
Qed.

(** X16.  The whole script is scanned before anything is executed: when
    the scan raises (a directive line without a second token, wherever it
    stands), [execute_many] executes no statement at all, on every driver,
    and with [autocommit=False] commits nothing. *)
Theorem scan_error_executes_nothing :
  forall (self : Database) (lines : list string) (e : exn) (h : history),
    scan_lines scan_init lines = Raise e ->
    executed (snd (execute_many drv self lines h)) = executed h
    /\ (autocommit self = false ->
        commits (snd (execute_many drv self lines h)) = commits h)
    /\ ((forall h' ev, drv_raises drv h' ev = None) ->
        fst (execute_many drv self lines h) = Raise e).
Proof.
  intros self lines e h Hscan.
  assert (Hbody : forall P, adds_only P
            (st <- lift (scan_lines scan_init lines) ;;
             execute_all drv (stmts st) ;; call drv ECommit)).
  { intros P h0. exists []. rewrite Hscan, app_nil_r. split; reflexivity. }
  split; [|split].
  - apply adds_no_execute. unfold execute_many.
    apply adds_only_cursor;
      [reflexivity|reflexivity|reflexivity|intros; reflexivity|apply Hbody].
  - intros Hauto. apply adds_no_commit. unfold execute_many.
    apply adds_only_cursor;
      [reflexivity|reflexivity|reflexivity|congruence|apply Hbody].
  - intros Hq. unfold execute_many.
    rewrite (cursor_quiet drv Hq unit self _ h (Raise e) (h ++ [EPing; ECursor]));
      [reflexivity|].
    unfold bind, lift. rewrite Hscan. reflexivity.
Qed.

(** The statements run in order until one raises. *)
Lemma execute_all_prefix l :
  forall h, exists k,
    snd (execute_all drv l h) = h ++ map (fun s => EExecute s None) (firstn k l)
    /\ (fst (execute_all drv l h) = Ok tt -> firstn k l = l).
Proof.
  induction l as [|s l IH]; intros h.
  - exists 0. simpl. rewrite app_nil_r. split; reflexivity.
  - cbn [execute_all]. unfold bind, call.
    destruct (drv_raises drv h (EExecute s None)) as [e|].
    + exists 1. cbn [firstn map fst snd].
      split; [reflexivity|discriminate].
    + destruct (IH (h ++ [EExecute s None])) as [k [Hk Hok]].
      exists (S k). cbn [firstn map]. rewrite Hk, <- app_assoc.
      split; [reflexivity|]. intros H. now rewrite (Hok H).
Qed.

Lemma script_body_prefix l :
  forall h, exists (k : nat) (c : bool),
    snd ((execute_all drv l ;; call drv ECommit) h)
    = h ++ map (fun s => EExecute s None) (firstn k l)
        ++ (if c then [ECommit] else [])
    /\ (c = true -> firstn k l = l)
    /\ (fst ((execute_all drv l ;; call drv ECommit) h) = Ok tt -> c = true).
Proof.
  intros h. destruct (execute_all_prefix l h) as [k [Hk Hok]].
  unfold bind. destruct (execute_all drv l h) as [[[]|e] h1]; cbn [fst snd] in *.
  - exists k, true. unfold call.
    destruct (drv_raises drv h1 ECommit); cbn [fst snd]; subst h1;
      rewrite <- app_assoc; (split; [reflexivity|split; [auto|auto]]).
  - exists k, false. subst h1. rewrite app_nil_r.
    split; [reflexivity|split; discriminate].
Qed.

(** X17.  [execute_many] runs the finalized statements in order: what it
    has executed is always a prefix of the finalized statements.  It
    returns normally only after all of them ran and the commit was made,
    and with [autocommit=False] a commit is issued only when every
    statement has been executed. *)
Theorem script_runs_a_prefix_and_commits_last :
  forall (self : Database) (lines : list string) (st : scan) (h : history),
    scan_lines scan_init lines = Ok st ->
    exists k,
      executed (snd (execute_many drv self lines h))
      = executed h ++ firstn k (stmts st)
      /\ (fst (execute_many drv self lines h) = Ok tt ->
          firstn k (stmts st) = stmts st
          /\ commits (snd (execute_many drv self lines h))
             = commits h + 1 + (if autocommit self then 1 else 0))
      /\ (autocommit self = false ->
          commits (snd (execute_many drv self lines h)) <> commits h ->
          firstn k (stmts st) = stmts st).
Proof.
  intros self lines st h Hscan.
  rewrite (execute_many_scanned drv self lines st Hscan h), cursor_unfold.
  destruct (drv_raises drv h EPing) as [e|].
  { exists 0. cbn [fst snd firstn].
    rewrite executed_app, commits_tail by reflexivity.
    simpl. rewrite app_nil_r.
    split; [reflexivity|split; [discriminate|intros _ H; congruence]]. }
  destruct (drv_raises drv (h ++ [EPing]) ECursor) as [e|].
  { exists 0. cbn [fst snd firstn].
    rewrite executed_app, commits_tail by reflexivity.
    simpl. rewrite app_nil_r.
    split; [reflexivity|split; [discriminate|intros _ H; congruence]]. }
  destruct (script_body_prefix (stmts st) (h ++ [EPing; ECursor]))
    as [k [c [Hsnd [Hall Hok]]]].
  exists k. unfold try_finally.
  destruct ((execute_all drv (stmts st) ;; call drv ECommit) (h ++ [EPing; ECursor]))
    as [r h1]. cbn [fst snd] in Hsnd, Hok. subst h1.
  set (h1 := (h ++ [EPing; ECursor])
             ++ map (fun s => EExecute s None) (firstn k (stmts st))
             ++ (if c then [ECommit] else [])).
  assert (Hex : executed h1 = executed h ++ firstn k (stmts st)).
  { unfold h1. rewrite app_assoc, (executed_tail _ (if c then [ECommit] else []))
      by (destruct c; reflexivity).
    rewrite executed_app, executed_statements, executed_tail by reflexivity.
    reflexivity. }
  assert (Hco : commits h1 = commits h + (if c then 1 else 0)).
  { unfold h1. rewrite !commits_app, commits_statements.
    destruct c; cbn; lia. }
  clearbody h1. unfold bind, call, ret.
  destruct (autocommit self).
  - destruct (drv_raises drv h1 ECommit) as [e|]; cbn [fst snd].
    + rewrite executed_tail, Hex by reflexivity.
      split; [reflexivity|split; discriminate].
    + destruct (drv_raises drv (h1 ++ [ECommit]) ECursorClose) as [e|];
        cbn [fst snd]; rewrite <- app_assoc, executed_tail, Hex by reflexivity;
        (split; [reflexivity|split; [|discriminate]]);
        [discriminate|].
      intros Hr. rewrite commits_app, Hco, (Hok Hr).
      split; [auto|reflexivity].
  - destruct (drv_raises drv h1 ECursorClose) as [e|];
      cbn [fst snd]; rewrite executed_tail, commits_tail, Hex, Hco by reflexivity;
      (split; [reflexivity|split]).
    + discriminate.
    + intros _ Hne. destruct c; [auto|lia].
    + intros Hr. rewrite (Hok Hr). split; [auto|lia].
    + intros _ Hne. destruct c; [auto|lia].
Qed.

End ScriptFailures.

Section ScriptFailureExamples.

Local Open Scope list_scope.

Lemma scan_error_executes_nothing_witness :
  scan_lines scan_init ["SELECT 1;"; "DELIMITER"]%string
  = Raise (IndexError "list index out of range")
  /\ executed (snd (execute_many never_raises example_db
                      ["SELECT 1;"; "DELIMITER"]%string []))
     = [].
Proof.
  split; [reflexivity|].
  exact (proj1 (scan_error_executes_nothing never_raises example_db
                  ["SELECT 1;"; "DELIMITER"]%string
                  (IndexError "list index out of range") [] eq_refl)).
Defined.

Lemma script_runs_a_prefix_and_commits_last_witness :
  scan_lines scan_init ["SELECT 1;"; "BAD;"; "SELECT 3;"]%string
  = Ok (mkScan ";" "" ["SELECT 1;"; "BAD;"; "SELECT 3;"]%string)
  /\ execute_many rejects_bad example_db ["SELECT 1;"; "BAD;"; "SELECT 3;"]%string []
     = (Raise (DriverError 1064),
        [EPing; ECursor; EExecute "SELECT 1;" None; EExecute "BAD;" None;
         ECursorClose])
  /\ exists k,
       executed (snd (execute_many rejects_bad example_db
                        ["SELECT 1;"; "BAD;"; "SELECT 3;"]%string []))
       = firstn k ["SELECT 1;"; "BAD;"; "SELECT 3;"]%string.
Proof.
  split; [reflexivity|]. split; [reflexivity|].
  destruct (script_runs_a_prefix_and_commits_last rejects_bad example_db
              ["SELECT 1;"; "BAD;"; "SELECT 3;"]%string
              (mkScan ";" "" ["SELECT 1;"; "BAD;"; "SELECT 3;"]%string) []
              eq_refl) as [k [Hk _]].
  exists k. exact Hk.
Defined.

End ScriptFailureExamples.

(* ================================================================== *)
(** ** More on connecting, [get_db] and transactions *)
(* ================================================================== *)

Section ConnectSuccess.

Local Open Scope list_scope.

Variable drv : driver.
Variables (self : Database) (n k : nat) (h : history).

Hypothesis k_in_range : k < n.
Hypothesis refused_before :
  forall j, j < k ->
    drv_raises drv (h ++ failed_attempts self n (seq 0 j))
      (EConnect (database self) (autocommit self)) <> None.
Hypothesis accepted_at :
  drv_raises drv (h ++ failed_attempts self n (seq 0 k))
    (EConnect (database self) (autocommit self)) = None.

Lemma failed_attempts_snoc j :
  j < n - 1 ->
  failed_attempts self n (seq 0 (S j))
  = failed_attempts self n (seq 0 j)
    ++ [EConnect (database self) (autocommit self); ELogRetry j n; ESleep (2 ^ j)].
Proof.
  intros Hj. rewrite seq_S. unfold failed_attempts.
  rewrite flat_map_app. cbn [flat_map plus]. unfold failed_attempt.
  destruct (Nat.ltb_spec j (n - 1)); [|lia].
  rewrite app_nil_r. reflexivity.
Qed.

Lemma connect_loop_until d :
  forall j, j + d = k ->
    connect_loop drv self n (seq j (n - j)) (h ++ failed_attempts self n (seq 0 j))
    = (Ok tt,
       h ++ failed_attempts self n (seq 0 k)
         ++ [EConnect (database self) (autocommit self)]).
Proof.
  induction d as [|d IH]; intros j Hj.
  - replace j with k in * by lia.
    destruct (n - k) as [|m] eqn:E; [lia|].
    cbn [seq connect_loop]. unfold try_except, call. rewrite accepted_at.
    rewrite <- app_assoc. reflexivity.
  - assert (Hlt : j < k) by lia.
    destruct (n - j) as [|m] eqn:E; [lia|].
    cbn [seq connect_loop]. unfold try_except, call.
    destruct (drv_raises drv (h ++ failed_attempts self n (seq 0 j))
                (EConnect (database self) (autocommit self))) as [e|] eqn:Er;
      [|exfalso; exact (refused_before j Hlt Er)].
    unfold bind, emit.
    destruct (Nat.ltb_spec j (n - 1)) as [Hj1|]; [|lia].
    replace m with (n - S j) by lia.
    rewrite <- (IH (S j)) by lia.
    rewrite (failed_attempts_snoc j Hj1), <- !app_assoc. reflexivity.
Qed.

(** X18.  When the first [k] connection attempts are refused and attempt
    [k] (counting from 0, [k < max_retries]) is accepted,
    [_get_connection] returns after exactly [k + 1] calls of [connect],
    having slept [2^0 .. 2^(k-1)] in between, and makes no further
    attempt. *)
Theorem connect_stops_at_first_success :
  get_connection_with drv n self h
  = (Ok tt,
     h ++ failed_attempts self n (seq 0 k)
       ++ [EConnect (database self) (autocommit self)])
  /\ connects (failed_attempts self n (seq 0 k)
               ++ [EConnect (database self) (autocommit self)]) = k + 1
  /\ sleeps (failed_attempts self n (seq 0 k)
             ++ [EConnect (database self) (autocommit self)])
     = map (fun j => 2 ^ j) (seq 0 k).
Proof.
  split; [|split].
  - unfold get_connection_with.
    pose proof (connect_loop_until k 0 eq_refl) as H.
    rewrite Nat.sub_0_r in H. cbn [seq failed_attempts flat_map] in H.
    rewrite app_nil_r in H. exact H.
  - unfold connects. rewrite filter_app, length_app.
    fold (connects (failed_attempts self n (seq 0 k))).
    rewrite connects_failed_attempts, length_seq. reflexivity.
  - rewrite sleeps_app, sleeps_failed_attempts.
    + simpl. apply app_nil_r.
    + intros j Hj. apply in_seq in Hj. lia.
Qed.

End ConnectSuccess.

Section ConnectSuccessExamples.

Local Open Scope list_scope.

Lemma connect_stops_at_first_success_witness :
  2 < 5
  /\ get_connection_with third_time_lucky 5 example_db []
     = (Ok tt,
        [EConnect "app" false; ELogRetry 0 5; ESleep 1;
         EConnect "app" false; ELogRetry 1 5; ESleep 2;
         EConnect "app" false]).
Proof.
  assert (Hk : 2 < 5) by lia.
  assert (Hre : forall j, j < 2 ->
            drv_raises third_time_lucky ([] ++ failed_attempts example_db 5 (seq 0 j))
              (EConnect (database example_db) (autocommit example_db)) <> None).
  { intros j Hj. destruct j as [|[|j]]; [discriminate|discriminate|lia]. }
  split; [exact Hk|].
  exact (proj1 (connect_stops_at_first_success third_time_lucky example_db 5 2 []
                  Hk Hre eq_refl)).
Defined.

End ConnectSuccessExamples.

Section RequestContext.

Local Open Scope list_scope.

Variable drv : driver.

(** X19.  [get_db] connects at most once per request context: a call that
    returns leaves the handle in the context, and a further call returns
    the same handle without touching the driver.  The handle of a fresh
    context is for the database [gpt_project] with autocommit on, obtained
    by a single [connect]. *)
Theorem get_db_connects_once :
  forall (g g1 : option Database) (db : Database) (h h1 : history),
    get_db drv g h = (Ok (g1, db), h1) ->
    g1 = Some db
    /\ get_db drv g1 h1 = (Ok (g1, db), h1)
    /\ (g = None ->
        db = mkDatabase "gpt_project" true
        /\ h1 = h ++ [EConnect "gpt_project" true])
    /\ (forall d, g = Some d -> db = d /\ h1 = h).
Proof.
  intros g g1 db h h1 Hrun. destruct g as [d|].
  - injection Hrun as <- <- <-.
    split; [reflexivity|]. split; [reflexivity|]. split; [discriminate|].
    intros d' Hd. injection Hd as <-. split; reflexivity.
  - unfold get_db, __init__, _get_connection, get_connection_with, max_retries in Hrun.
    cbn [seq connect_loop] in Hrun.
    unfold bind, try_except, call, emit, ret, raise in Hrun.
    cbn [database autocommit] in Hrun.
    destruct (drv_raises drv h (EConnect "gpt_project" true)); cbn in Hrun.
    + discriminate Hrun.
    + injection Hrun as <- <- <-.
      split; [reflexivity|]. split; [reflexivity|].
      split; [intros _; split; reflexivity|intros d' Hd; discriminate Hd].
Qed.

(** X20.  A failed transaction block commits nothing.  When the body of
    [with db:] itself issues neither commit nor rollback (as [insert],
    [update], [insert_on_dup_update] and [execute] do under
    [autocommit=False]), a body that raises leaves the history with no new
    commit and exactly one rollback, and a body that returns leaves it with
    exactly one commit and no rollback. *)
Theorem failed_block_commits_nothing :
  forall (A : Type) (self : Database) (body : Database -> M A) (h : history),
    adds_only not_commit (body self) ->
    adds_only not_rollback (body self) ->
    let out := with_database drv self body h in
    match fst (body self h) with
    | Ok _ =>
        commits (snd out) = commits h + 1 /\ rollbacks (snd out) = rollbacks h
    | Raise _ =>
        commits (snd out) = commits h /\ rollbacks (snd out) = rollbacks h + 1
    end.
Proof.
  intros A self body h Hc Hr out. subst out.
  pose proof (adds_no_commit A _ Hc h) as Hc'.
  pose proof (adds_no_rollback A _ Hr h) as Hr'.
  rewrite with_database_unfold.
  destruct (body self h) as [[a|e] h1]; cbn [fst snd] in *;
    unfold bind, __exit__, call, ret, raise.
  - destruct (drv_raises drv h1 ECommit); cbn [snd];
      rewrite commits_snoc, rollbacks_snoc; simpl; lia.
  - destruct (drv_raises drv h1 ERollback); cbn [snd];
      rewrite commits_snoc, rollbacks_snoc; simpl; lia.
Qed.

End RequestContext.

Section RequestContextExamples.

Local Open Scope list_scope.

Lemma get_db_connects_once_witness :
  get_db never_raises None []
  = (Ok (Some (mkDatabase "gpt_project" true), mkDatabase "gpt_project" true),
     [EConnect "gpt_project" true])
  /\ get_db never_raises (Some (mkDatabase "gpt_project" true))
       [EConnect "gpt_project" true]
     = (Ok (Some (mkDatabase "gpt_project" true), mkDatabase "gpt_project" true),
        [EConnect "gpt_project" true]).
Proof.
  split; [reflexivity|].
  exact (proj1 (proj2 (get_db_connects_once never_raises None _ _ [] _ eq_refl))).
Defined.

Lemma failed_block_commits_nothing_witness :
  let body := fun db : Database =>
                (insert rejects_bad db "t" [("name", VStr "x")]%string ;;
                 execute rejects_bad db "BAD;" [])%py in
  adds_only not_commit (body example_db)
  /\ adds_only not_rollback (body example_db)
  /\ fst (body example_db []) = Raise (DriverError 1064)
  /\ commits (snd (with_database rejects_bad example_db body [])) = 0
  /\ rollbacks (snd (with_database rejects_bad example_db body [])) = 1.
Proof.
  intros body.
  assert (Hc : adds_only not_commit (body example_db)).
  { unfold body. frames. }
  assert (Hr : adds_only not_rollback (body example_db)).
  { unfold body. frames. }
  split; [exact Hc|]. split; [exact Hr|]. split; [reflexivity|].
  exact (failed_block_commits_nothing rejects_bad unit example_db body [] Hc Hr).
Defined.

End RequestContextExamples.

(* ================================================================== *)
(** ** Log rendering *)
(* ================================================================== *)

Section LogRendering.

Lemma length_app_string a b :
  String.length (a ++ b) = String.length a + String.length b.
Proof.
  induction a as [|c a IH]; simpl; [reflexivity|]. now rewrite IH.
Qed.

Lemma length_substring_0 m :
  forall s, String.length (String.substring 0 m s) = Nat.min m (String.length s).
Proof.
  induction m as [|m IH]; intros s.
  - destruct s; reflexivity.
  - destruct s as [|c s]; [reflexivity|]. simpl. now rewrite IH.
Qed.

Lemma substring_0_prefix m :
  forall s, String.prefix (String.substring 0 m s) s = true.
Proof.
  induction m as [|m IH]; intros s.
  - destruct s; reflexivity.
  - destruct s as [|c s]; [reflexivity|]. simpl.
    destruct (ascii_dec c c); [apply IH|congruence].
Qed.

(** X21.  The text [_log_query] renders for one argument, before the
    surrounding quotes are added, is never longer than 16000 characters:
    an argument of at most 16000 characters is logged as it is, a longer
    one as its first 16 characters followed by three dots (19
    characters). *)
Theorem log_arg_is_bounded :
  forall s : string,
    String.length (log_arg s) <= 16000
    /\ (String.length s <= 16000 -> log_arg s = s)
    /\ (16000 < String.length s ->
        log_arg s = (String.substring 0 16 s ++ "...")%string
        /\ String.length (log_arg s) = 19
        /\ String.prefix (String.substring 0 16 s) s = true).
Proof.
  intros s. unfold log_arg.
  destruct (Nat.ltb_spec 16000 (String.length s)) as [Hlong|Hshort].
  - assert (H19 : String.length (String.substring 0 16 s ++ "...") = 19).
    { rewrite length_app_string, length_substring_0.
      rewrite Nat.min_l; [reflexivity|].
      apply Nat.lt_le_incl, (Nat.le_lt_trans _ 16000); [|exact Hlong].
      apply Nat.leb_le. vm_compute. reflexivity. }
    split; [rewrite H19; apply Nat.leb_le; vm_compute; reflexivity|].
    split; [intros Hle; exfalso; exact (Nat.lt_irrefl _ (Nat.le_lt_trans _ _ _ Hle Hlong))|].
    intros _. split; [reflexivity|]. split; [exact H19|apply substring_0_prefix].
  - split; [exact Hshort|]. split; [reflexivity|].
    intros Hlong. exfalso. exact (Nat.lt_irrefl _ (Nat.le_lt_trans _ _ _ Hshort Hlong)).
Qed.

End LogRendering.

(* ================================================================== *)
(** ** Further examples and the empty row *)
(* ================================================================== *)

Section CursorScopeExamples.

Local Open Scope list_scope.

Lemma cursor_released_on_every_exit_witness :
  drv_raises never_raises [] EPing = None
  /\ drv_raises never_raises ([] ++ [EPing]) ECursor = None
  /\ cursor never_raises example_db (@raise nat (ValueError "boom")) []
     = (Raise (ValueError "boom"), [EPing; ECursor; ECursorClose]).
Proof.
  split; [reflexivity|]. split; [reflexivity|].
  destruct (cursor_released_on_every_exit never_raises nat example_db
              (raise (ValueError "boom")) [] [EPing; ECursor]
              (Raise (ValueError "boom")) eq_refl eq_refl eq_refl
              (fun H => eq_refl)) as [Hs Hf].
  specialize (Hf eq_refl).
  destruct (cursor never_raises example_db (raise (ValueError "boom")) [])
    as [r h'].
  cbn [fst snd] in Hs, Hf. rewrite Hs, Hf. reflexivity.
Defined.

Lemma cursor_not_closed_when_commit_raises_witness :
  autocommit autocommit_db = true
  /\ drv_raises commit_fails [EPing; ECursor] ECommit = Some (DriverError 2013)
  /\ cursor commit_fails autocommit_db (ret 5) []
     = (Raise (DriverError 2013), [EPing; ECursor; ECommit]).
Proof.
  split; [reflexivity|]. split; [reflexivity|].
  exact (cursor_not_closed_when_commit_raises commit_fails nat autocommit_db
           (ret 5) [] [EPing; ECursor] (Ok 5) (DriverError 2013)
           eq_refl eq_refl eq_refl eq_refl eq_refl).
Defined.

End CursorScopeExamples.

Section EmptyRow.

Local Open Scope list_scope.

Variable drv : driver.
Hypothesis quiet : forall h ev, drv_raises drv h ev = None.

(** X22.  A row without any column other than [id] is not rejected:
    [update] builds a statement with an empty SET list, binds only the
    where value and sends it to the driver, and [insert] sends an INSERT
    with empty column and value lists. *)
Theorem empty_row_is_sent_to_the_driver :
  forall (self : Database) (table : string) (obj : dict)
         (w : string * value) (h : history),
    non_id_keys obj = [] ->
    update_stmt table obj (Some w) None
    = Ok (("UPDATE " ++ table ++ " SET  WHERE `" ++ fst w ++ "`=%s")%string,
          [snd w])
    /\ insert_stmt table obj
       = Ok (("INSERT INTO " ++ table ++ " () VALUES ()")%string, [])
    /\ executed (snd (update drv self table obj (Some w) None h))
       = executed h
         ++ [("UPDATE " ++ table ++ " SET  WHERE `" ++ fst w ++ "`=%s")%string]
    /\ executed (snd (insert drv self table obj h))
       = executed h ++ [("INSERT INTO " ++ table ++ " () VALUES ()")%string].
Proof.
  intros self table obj w h Hempty.
  assert (Hu : update_stmt table obj (Some w) None
               = Ok (("UPDATE " ++ table ++ " SET  WHERE `" ++ fst w ++ "`=%s")%string,
                     [snd w])).
  { assert (Hvs : getitems obj (non_id_keys obj) = Ok [])
      by (rewrite Hempty; reflexivity).
    rewrite (update_stmt_where_shape table obj [] Hvs w None), Hempty.
    reflexivity. }
  assert (Hi : insert_stmt table obj
               = Ok (("INSERT INTO " ++ table ++ " () VALUES ()")%string, [])).
  { unfold insert_stmt. rewrite Hempty. reflexivity. }
  split; [exact Hu|]. split; [exact Hi|]. split.
  - unfold update. rewrite Hu. unfold bind at 1, lift at 1. cbn [fst snd].
    unfold bind at 1, _log_query, emit.
    erewrite (cursor_quiet drv quiet).
    2:{ rewrite call_quiet by exact quiet. reflexivity. }
    cbn [snd]. rewrite !executed_app. simpl.
    destruct (autocommit self); simpl; rewrite ?app_nil_r; reflexivity.
  - unfold insert. rewrite Hi. unfold bind at 1, lift at 1. cbn [fst snd].
    unfold bind at 1.
    erewrite (cursor_quiet drv quiet).
    2:{ unfold bind, lastrowid. rewrite call_quiet by exact quiet. reflexivity. }
    destruct (drv_lastrowid drv _); unfold ret, raise; cbn [snd];
      rewrite !executed_app; simpl;
      destruct (autocommit self); simpl; rewrite ?app_nil_r; reflexivity.
Qed.

End EmptyRow.

Section EmptyRowExamples.

Local Open Scope list_scope.

Lemma empty_row_is_sent_to_the_driver_witness :
  (forall h ev, drv_raises never_raises h ev = None)
  /\ non_id_keys [("id"%string, VInt 5)] = []
  /\ executed (snd (update never_raises example_db "t" [("id"%string, VInt 5)]
                      (Some ("id"%string, VInt 5)) None []))
     = ["UPDATE t SET  WHERE `id`=%s"%string].
Proof.
  split; [reflexivity|]. split; [reflexivity|].
  exact (proj1 (proj2 (proj2
           (empty_row_is_sent_to_the_driver never_raises (fun _ _ => eq_refl)
              example_db "t" [("id"%string, VInt 5)] ("id"%string, VInt 5) []
              eq_refl)))).
Defined.

End EmptyRowExamples.
